(** * CTC training script of snowfall's heroico recipe

    A shallow embedding of [egs/heroico/asr/simple_v1/ctc_train.py]:
    the batch statistics ([get_tot_objf_and_num_frames]), the per-batch
    objective ([get_objf]), the validation and training loops
    ([get_validation_objf], [train_one_epoch]) and the epoch and
    checkpoint loop of [main].

    Python floats and float64 tensors are IEEE binary64 numbers, here the
    kernel's primitive floats.  Python ints are [Z], int32 and int64
    tensors are lists of [Z] with the wrap-around written out.  The calls
    into torch, k2, lhotse and snowfall.common are a record of operations
    ([Externals]); what the script does with their results is modelled
    here, in a monad that carries the model and optimizer, collects the
    calls made (a trace) and propagates Python exceptions. *)

From Stdlib Require Import String Ascii DecimalString DecimalNat.
From Stdlib Require Import ZArith List Bool Lia Arith.
From Stdlib Require Import Floats Uint63 Permutation Sorted.
Import ListNotations.

Local Open Scope Z_scope.
Set Warnings "-inexact-float".

(** ** Numbers *)

Module PyNum.

(** [torch.Tensor.to(torch.int32)] and int64 accumulation wrap around. *)
Definition wrap (w : Z) (z : Z) : Z :=
  (z + 2 ^ (w - 1)) mod 2 ^ w - 2 ^ (w - 1).
Definition wrap32 : Z -> Z := wrap 32.
Definition wrap64 : Z -> Z := wrap 64.

(** Python's [float(n)] for an [n] in the int64 range (round to nearest
    even, as [PrimFloat.of_uint63] does). *)
Definition float_of_int (z : Z) : float :=
  if z =? - 2 ^ 63 then (-0x1p63)%float
  else if z <? 0 then PrimFloat.opp (PrimFloat.of_uint63 (Uint63.of_Z (- z)))
  else PrimFloat.of_uint63 (Uint63.of_Z z).

(** IEEE comparisons, as Python's [<] and torch's [ne] on floats. *)
Definition is_neg_inf (x : float) : bool := PrimFloat.eqb x neg_infinity.

End PyNum.
Import PyNum.

(** ** Tensors of rank one *)

Module Torch.

(** [torch.ne(t, v)] *)
Definition ne (t : list float) (v : float) : list bool :=
  map (fun x => negb (PrimFloat.eqb x v)) t.

(** [torch.nonzero(mask).squeeze(1)]: the indexes of the true entries,
    increasing. *)
Fixpoint nonzero_from (i : nat) (mask : list bool) : list nat :=
  match mask with
  | [] => []
  | b :: rest =>
      if b then i :: nonzero_from (S i) rest else nonzero_from (S i) rest
  end.
Definition nonzero (mask : list bool) : list nat := nonzero_from 0 mask.

(** [t[indexes]] with a tensor of indexes: [None] is the IndexError of
    an index out of range. *)
Fixpoint index_select {A : Type} (t : list A) (indexes : list nat)
  : option (list A) :=
  match indexes with
  | [] => Some []
  | i :: rest =>
      match nth_error t i, index_select t rest with
      | Some x, Some xs => Some (x :: xs)
      | _, _ => None
      end
  end.

(** [t.sum()] of a float64 tensor.  The order in which torch reduces is
    the library's; the entries are accumulated left to right here. *)
Definition fsum (t : list float) : float :=
  fold_left PrimFloat.add t 0%float.

(** [t.sum()] of an int32 tensor: torch accumulates in int64. *)
Definition isum (t : list Z) : Z :=
  fold_left (fun acc x => wrap64 (acc + x)) t 0.

End Torch.

(** ** get_tot_objf_and_num_frames *)

(** [None] stands for the IndexError raised when [frames_per_seq] is
    shorter than an index of a successful segment. *)
Definition get_tot_objf_and_num_frames
  (tot_scores : list float) (frames_per_seq : list Z)
  : option (float * Z * Z) :=
  let mask := Torch.ne tot_scores neg_infinity in
  let finite_indexes := Torch.nonzero mask in
  match Torch.index_select frames_per_seq finite_indexes,
        Torch.index_select tot_scores finite_indexes with
  | Some ok_sel, Some score_sel =>
      let ok_frames := Torch.isum ok_sel in
      let all_frames := Torch.isum frames_per_seq in
      Some (Torch.fsum score_sel, ok_frames, all_frames)
  | _, _ => None
  end.

(** A segment is successful when its total score is not minus infinity
    (the docstring of [get_tot_objf_and_num_frames]). *)
Definition successful (score : float) : bool := negb (is_neg_inf score).

(** The frame counts of the successful segments, by position. *)
Definition frames_of_successful (tot_scores : list float) (frames : list Z)
  : list Z :=
  map snd (filter (fun p => successful (fst p)) (combine tot_scores frames)).

(** The exact sum of a list of integers. *)
Definition zsum (l : list Z) : Z := fold_right Z.add 0 l.

(** ** Python exceptions and results *)

Inductive exn : Type :=
| ZeroDivisionError
| IndexError
| RuntimeError
| AssertionError
| SystemExit (code : Z).

Inductive result (A : Type) : Type :=
| Ok (a : A)
| Raise (e : exn).
Arguments Ok {A} a.
Arguments Raise {A} e.

Definition of_option {A : Type} (e : exn) (o : option A) : result A :=
  match o with
  | Some a => Ok a
  | None => Raise e
  end.

(** ** Supervision segments *)

Record Supervisions : Type := {
  sequence_idx : list Z;
  start_frame : list Z;
  num_frames : list Z;
  text : list string
}.

Definition segment : Type := (Z * Z * Z)%type.
Definition seg_frames (s : segment) : Z := snd s.

(** [torch.floor_divide(t, d)] on an integer tensor; a zero divisor is a
    RuntimeError.  (Frame counts and offsets are not negative, where
    rounding down and rounding to zero agree.) *)
Definition floor_divide (t : list Z) (d : Z) : result (list Z) :=
  if d =? 0 then Raise RuntimeError else Ok (map (fun x => x / d) t).

(** [torch.stack((a, b, c), 1)]: the three tensors must have one shape. *)
Fixpoint stack3 (a b c : list Z) : result (list segment) :=
  match a, b, c with
  | [], [], [] => Ok []
  | x :: a', y :: b', z :: c' =>
      match stack3 a' b' c' with
      | Ok rows => Ok ((x, y, z) :: rows)
      | Raise e => Raise e
      end
  | _, _, _ => Raise RuntimeError
  end.

Definition to_int32 (rows : list segment) : list segment :=
  map (fun r => match r with (x, y, z) => (wrap32 x, wrap32 y, wrap32 z) end)
    rows.

(** [torch.argsort(keys, descending=True)].  torch leaves the order of
    equal keys open; this is the stable order. *)
Fixpoint insert_desc (k : Z) (i : nat) (l : list (Z * nat)) : list (Z * nat) :=
  match l with
  | [] => [(k, i)]
  | (k', i') :: rest =>
      if k' <=? k then (k, i) :: l else (k', i') :: insert_desc k i rest
  end.

Definition argsort_desc (keys : list Z) : list nat :=
  map snd
    (fold_right (fun p acc => insert_desc (fst p) (snd p) acc) []
       (combine keys (seq 0 (length keys)))).

(** Lines 74-84 of [get_objf]: the supervision segments, subsampled, as
    int32, sorted by decreasing number of frames, and the texts in the
    same order. *)
Definition sorted_supervisions (sup : Supervisions) (subsampling : Z)
  : result (list segment * list string) :=
  match floor_divide (start_frame sup) subsampling with
  | Raise e => Raise e
  | Ok starts =>
      match floor_divide (num_frames sup) subsampling with
      | Raise e => Raise e
      | Ok lens =>
          match stack3 (sequence_idx sup) starts lens with
          | Raise e => Raise e
          | Ok rows =>
              let supervision_segments := to_int32 rows in
              let indices := argsort_desc (map seg_frames supervision_segments) in
              match of_option IndexError
                      (Torch.index_select supervision_segments indices) with
              | Raise e => Raise e
              | Ok supervision_segments' =>
                  match of_option IndexError
                          (Torch.index_select (text sup) indices) with
                  | Raise e => Raise e
                  | Ok texts => Ok (supervision_segments', texts)
                  end
              end
          end
      end
  end.

(** ** The libraries the script calls *)

(** torch's model and optimizer, k2's graphs and lattices, and snowfall's
    graph compiler, with the operations [get_objf] applies to them.
    [tot_scores_per_segment] is k2's contract that intersecting with a
    dense FSA vector yields one lattice, hence one total score, per
    supervision segment.  The operations are functions: a call into a
    library returns, what can go wrong inside it is not modelled. *)
Record Externals : Type := {
  Feature : Type;
  NnetOutput : Type;
  Model : Type;
  Optimizer : Type;
  GraphCompiler : Type;
  Fsa : Type;
  DenseFsaVec : Type;
  ndim : Feature -> nat;
  subsampling_factor : Model -> Z;
  model_call : Model -> Feature -> NnetOutput;
  model_train : Model -> Model;
  model_eval : Model -> Model;
  compile : GraphCompiler -> list string -> Fsa;
  dense_fsa_vec : NnetOutput -> list segment -> DenseFsaVec;
  intersect_dense : Fsa -> DenseFsaVec -> float -> Fsa;
  get_tot_scores : Fsa -> bool -> bool -> list float;
  backward_and_step : Optimizer -> Model -> Fsa -> Model * Optimizer;
  tot_scores_per_segment :
    forall g nnet segs beam log_semiring use_double_scores,
      length (get_tot_scores (intersect_dense g (dense_fsa_vec nnet segs) beam)
                log_semiring use_double_scores)
      = length segs
}.

(** ** Calls recorded in the trace *)

Inductive log_level : Type := INFO | WARNING | ERROR.

(** The messages logged, with the values formatted into them (the time
    spent waiting for a batch is left out). *)
Inductive message : Type :=
| MsgText (s : string)
| MsgBatch (batch_idx current_epoch num_epochs : nat)
    (global_average_objf total_frames kept current_average_objf : float)
    (curr_batch_frames : Z) (curr_kept : float)
| MsgValidation (valid_average_objf total_valid_frames kept : float)
| MsgEpoch (epoch : nat) (learning_rate : float).

(** The calls of [main] that set the run up. *)
Inductive setup_call : Type :=
| FixRandomSeed (seed : Z)
| SetupLogger (path : string)
| NewSummaryWriter (log_dir : string)
| SymbolTableFromFile (path : string)
| PathExists (path : string)
| TorchLoadFsa (path : string)
| ReadOpenfst (path : string)
| InvertArcSort
| TorchSaveFsa (path : string)
| NewCtcTrainingGraphCompiler
| GetPhoneSymbols
| CutSetFromJson (path : string)
| NewK2SpeechRecognitionDataset
| NewSingleCutSampler (max_frames : Z) (shuffle : bool)
| NewDataLoader (num_workers : Z)
| CudaIsAvailable
| NewTdnnLstm1b (num_features num_classes subsampling : Z)
| ModelToDevice
| Describe
| NewAdamW.

Section Script.

Context (E : Externals).

Record Batch : Type := {
  inputs : Feature E;
  supervisions : Supervisions
}.

Inductive event : Type :=
| EvSetup (c : setup_call)
| EvLog (level : log_level) (msg : message)
| EvAddScalar (tag : string) (value : float) (step : Z)
| EvSetEpoch (epoch : nat)
| EvModelTrain
| EvModelEval
| EvModelCall (training : bool)
| EvCompile (texts : list string)
| EvDenseFsaVec (segs : list segment)
| EvIntersectDense (a_fsas : Fsa E) (b_fsas : DenseFsaVec E) (beam : float)
| EvGetTotScores (log_semiring use_double_scores : bool)
| EvOptimizerStep (clip : float)
| EvObjf (training : bool) (objf : float) (frames all_frames : Z)
| EvSaveCheckpoint (filename : string) (with_optimizer : bool) (epoch : nat)
    (learning_rate objf valid_objf : float) (global_batch_idx_train : Z)
| EvSaveTrainingInfo (filename model_path : string) (current_epoch : nat)
    (learning_rate objf best_objf valid_objf best_valid_objf : float)
    (best_epoch : nat).

(** ** The monad: model and optimizer as state, a trace, exceptions *)

Record World : Type := {
  w_model : Model E;
  w_optimizer : Optimizer E
}.

Definition M (A : Type) : Type := World -> list event * World * result A.

Definition ret {A : Type} (a : A) : M A := fun w => ([], w, Ok a).

Definition bind {A B : Type} (c : M A) (f : A -> M B) : M B :=
  fun w =>
    match c w with
    | (t1, w1, Ok a) =>
        match f a w1 with
        | (t2, w2, r) => (t1 ++ t2, w2, r)
        end
    | (t1, w1, Raise e) => (t1, w1, Raise e)
    end.

Definition raise {A : Type} (e : exn) : M A := fun w => ([], w, Raise e).

Definition emit (ev : event) : M unit := fun w => ([ev], w, Ok tt).

Definition lift {A : Type} (r : result A) : M A := fun w => ([], w, r).

Definition get_model : M (Model E) := fun w => ([], w, Ok (w_model w)).

Definition put_model (m : Model E) : M unit :=
  fun w => ([], {| w_model := m; w_optimizer := w_optimizer w |}, Ok tt).

Definition trace_of {A : Type} (x : list event * World * result A)
  : list event := fst (fst x).
Definition world_of {A : Type} (x : list event * World * result A)
  : World := snd (fst x).
Definition result_of {A : Type} (x : list event * World * result A)
  : result A := snd x.

Notation "x <- c ;; k" := (bind c (fun x => k))
  (at level 61, c at next level, right associativity).
Notation "' pat <- c ;; k" := (bind c (fun x => match x with pat => k end))
  (at level 61, pat pattern, c at next level, right associativity).
Notation "c ;; k" := (bind c (fun _ => k))
  (at level 61, right associativity).

(** Python's [x / y] on floats. *)
Definition py_div (x y : float) : M float :=
  if PrimFloat.eqb y 0%float then raise ZeroDivisionError
  else ret (x / y)%float.

Definition py_assert (b : bool) : M unit :=
  if b then ret tt else raise AssertionError.

(** [for idx, x in enumerate(xs)], threading the loop's variables. *)
Fixpoint for_enumerate {X St : Type} (body : St -> nat -> X -> M St)
  (idx : nat) (xs : list X) (s : St) : M St :=
  match xs with
  | [] => ret s
  | x :: rest => s' <- body s idx x ;; for_enumerate body (S idx) rest s'
  end.

(** ** get_objf *)

(** [optimizer.zero_grad(); (-tot_score).backward();
    clip_grad_value_(model.parameters(), 5.0); optimizer.step()] *)
Definition optimizer_step (target_graph : Fsa E) : M unit :=
  fun w =>
    match backward_and_step E (w_optimizer w) (w_model w) target_graph with
    | (m, o) =>
        ([EvOptimizerStep 5], {| w_model := m; w_optimizer := o |}, Ok tt)
    end.

(** The value returned is also recorded in the trace ([EvObjf]).  The
    device placement and the assertions on devices are left out: every
    tensor has been moved to [device] when they are reached. *)
Definition get_objf (batch : Batch) (graph_compiler : GraphCompiler E)
  (training : bool) : M (float * Z * Z) :=
  let feature := inputs batch in
  model <- get_model ;;
  ' (supervision_segments, texts) <-
    lift (sorted_supervisions (supervisions batch)
            (subsampling_factor E model)) ;;
  py_assert (Nat.eqb (ndim E feature) 3) ;;
  emit (EvModelCall training) ;;
  let nnet_output := model_call E model feature in
  emit (EvCompile texts) ;;
  let decoding_graph := compile E graph_compiler texts in
  emit (EvDenseFsaVec supervision_segments) ;;
  let dense := dense_fsa_vec E nnet_output supervision_segments in
  emit (EvIntersectDense decoding_graph dense 10) ;;
  let target_graph := intersect_dense E decoding_graph dense 10 in
  emit (EvGetTotScores true true) ;;
  let tot_scores := get_tot_scores E target_graph true true in
  ' (tot_score, tot_frames, all_frames) <-
    lift (of_option IndexError
            (get_tot_objf_and_num_frames tot_scores
               (map seg_frames supervision_segments))) ;;
  (if training then optimizer_step target_graph else ret tt) ;;
  let ans := ((- tot_score)%float, tot_frames, all_frames) in
  emit (EvObjf training (- tot_score)%float tot_frames all_frames) ;;
  ret ans.

(** ** get_validation_objf *)

(** [total_objf], [total_frames], [total_all_frames]: Python floats, the
    frame counts of a batch are ints added to them. *)
Definition totals : Type := (float * float * float)%type.

Definition add_batch (acc : totals) (r : float * Z * Z) : totals :=
  match acc, r with
  | (total_objf, total_frames, total_all_frames), (objf, frames, all_frames) =>
      ((total_objf + objf)%float,
       (total_frames + float_of_int frames)%float,
       (total_all_frames + float_of_int all_frames)%float)
  end.

Definition get_validation_objf (dataloader : list Batch)
  (graph_compiler : GraphCompiler E) : M totals :=
  m <- get_model ;;
  put_model (model_eval E m) ;;
  emit EvModelEval ;;
  for_enumerate
    (fun acc (batch_idx : nat) batch =>
       r <- get_objf batch graph_compiler false ;;
       ret (add_batch acc r))
    0%nat dataloader (0%float, 0%float, 0%float).

(** ** train_one_epoch *)

Record TrainState : Type := {
  ts_totals : totals;
  valid_average_objf : float;
  global_batch_idx_train : Z
}.

Definition set_model_train : M unit :=
  m <- get_model ;;
  put_model (model_train E m) ;;
  emit EvModelTrain.

(** Lines 177-196: the progress report of every tenth batch. *)
Definition report_batch (batch_idx current_epoch num_epochs : nat)
  (acc : totals) (r : float * Z * Z) (global_idx : Z) : M unit :=
  match acc, r with
  | (total_objf, total_frames, total_all_frames),
    (curr_batch_objf, curr_batch_frames, curr_batch_all_frames) =>
      global_average <- py_div total_objf total_frames ;;
      kept <- py_div (100 * total_frames)%float total_all_frames ;;
      current_average <-
        py_div curr_batch_objf
          (float_of_int curr_batch_frames + 0.001)%float ;;
      curr_kept <-
        py_div (100 * float_of_int curr_batch_frames)%float
          (float_of_int curr_batch_all_frames) ;;
      emit (EvLog INFO
              (MsgBatch batch_idx current_epoch num_epochs global_average
                 total_frames kept current_average curr_batch_frames
                 curr_kept)) ;;
      global_average' <- py_div total_objf total_frames ;;
      emit (EvAddScalar "train/global_average_objf" global_average'
              global_idx) ;;
      current_average' <-
        py_div curr_batch_objf
          (float_of_int curr_batch_frames + 0.001)%float ;;
      emit (EvAddScalar "train/current_batch_average_objf" current_average'
              global_idx)
  end.

(** Lines 201-217: validation in the middle of an epoch. *)
Definition validate (valid_dataloader : list Batch)
  (graph_compiler : GraphCompiler E) (global_idx : Z) : M float :=
  ' (total_valid_objf, total_valid_frames, total_valid_all_frames) <-
    get_validation_objf valid_dataloader graph_compiler ;;
  valid_average <- py_div total_valid_objf total_valid_frames ;;
  set_model_train ;;
  kept <- py_div (100 * total_valid_frames)%float total_valid_all_frames ;;
  emit (EvLog INFO (MsgValidation valid_average total_valid_frames kept)) ;;
  emit (EvAddScalar "train/global_valid_average_objf" valid_average
          global_idx) ;;
  ret valid_average.

(** The body of the loop over the batches of the training loader. *)
Definition train_batch (valid_dataloader : list Batch)
  (graph_compiler : GraphCompiler E) (current_epoch num_epochs : nat)
  (st : TrainState) (batch_idx : nat) (batch : Batch) : M TrainState :=
  let global_idx := global_batch_idx_train st + 1 in
  r <- get_objf batch graph_compiler true ;;
  let acc := add_batch (ts_totals st) r in
  (if (batch_idx mod 10 =? 0)%nat
   then report_batch batch_idx current_epoch num_epochs acc r global_idx
   else ret tt) ;;
  valid <-
    (if (0 <? batch_idx)%nat && (batch_idx mod 200 =? 0)%nat
     then validate valid_dataloader graph_compiler global_idx
     else ret (valid_average_objf st)) ;;
  ret {| ts_totals := acc;
         valid_average_objf := valid;
         global_batch_idx_train := global_idx |}.

Definition train_loop (dataloader valid_dataloader : list Batch)
  (graph_compiler : GraphCompiler E) (current_epoch num_epochs : nat)
  (global_idx : Z) : M TrainState :=
  set_model_train ;;
  for_enumerate
    (train_batch valid_dataloader graph_compiler current_epoch num_epochs)
    0%nat dataloader
    {| ts_totals := (0%float, 0%float, 0%float);
       valid_average_objf := infinity;
       global_batch_idx_train := global_idx |}.

Definition train_one_epoch (dataloader valid_dataloader : list Batch)
  (graph_compiler : GraphCompiler E) (current_epoch num_epochs : nat)
  (global_idx : Z) : M (float * float * Z) :=
  st <- train_loop dataloader valid_dataloader graph_compiler current_epoch
          num_epochs global_idx ;;
  match ts_totals st with
  | (total_objf, total_frames, _) =>
      average <- py_div total_objf total_frames ;;
      ret (average, valid_average_objf st, global_batch_idx_train st)
  end.

(** ** main *)

Definition start_epoch : nat := 0.
Definition num_epochs : nat := 8.
Definition exp_dir : string := "exp-lstm-adam-ctc".

Fixpoint ends_with_slash (s : string) : bool :=
  match s with
  | EmptyString => false
  | String c EmptyString => Ascii.eqb c "/"
  | String _ rest => ends_with_slash rest
  end.

(** [os.path.join(a, b)] on POSIX. *)
Definition os_path_join (a b : string) : string :=
  match b with
  | String "/" _ => b
  | _ =>
      if String.eqb a "" || ends_with_slash a then (a ++ b)%string
      else (a ++ "/" ++ b)%string
  end.

(** ['{}'.format(n)] for a natural number. *)
Definition format_nat (n : nat) : string :=
  NilEmpty.string_of_uint (Nat.to_uint n).

Definition best_model_path : string := os_path_join exp_dir "best_model.pt".
Definition best_epoch_info_filename : string :=
  os_path_join exp_dir "best-epoch-info".
Definition epoch_model_path (epoch : nat) : string :=
  os_path_join exp_dir ("epoch-" ++ format_nat epoch ++ ".pt")%string.
Definition epoch_info_filename (epoch : nat) : string :=
  os_path_join exp_dir ("epoch-" ++ format_nat epoch ++ "-info")%string.

(** What [load_checkpoint] returns. *)
Record Checkpoint : Type := {
  ckpt_epoch : nat;
  ckpt_objf : float;
  ckpt_valid_objf : float;
  ckpt_global_batch_idx_train : Z
}.

(** What a run finds outside the script: the machine, the files, the data
    the loaders yield (the training loader per epoch, after
    [train_sampler.set_epoch(epoch)]), and the objects the constructors
    return. *)
Record Env : Type := {
  cuda_is_available : bool;
  linv_pt_exists : bool;
  phone_ids : list Z;
  graph_compiler : GraphCompiler E;
  train_dl : nat -> list Batch;
  valid_dl : list Batch;
  new_model : Model E;
  new_optimizer : Optimizer E;
  load_checkpoint : string -> World -> World * Checkpoint
}.

Definition setup (c : setup_call) : M unit := emit (EvSetup c).
Definition logging_info (s : string) : M unit := emit (EvLog INFO (MsgText s)).

Record BestState : Type := {
  best_objf : float;
  best_valid_objf : float;
  best_epoch : nat
}.

Definition curr_learning_rate : float := 0.001.

(** Lines 344-389: what is saved once [train_one_epoch] has returned. *)
Definition save_epoch (epoch : nat) (best : BestState)
  (r : float * float * Z) : M BestState :=
  match r with
  | (objf, valid_objf, global_idx) =>
      best' <-
        (if (valid_objf <? best_valid_objf best)%float
         then
           emit (EvSaveCheckpoint best_model_path false epoch
                   curr_learning_rate objf valid_objf global_idx) ;;
           emit (EvSaveTrainingInfo best_epoch_info_filename best_model_path
                   epoch curr_learning_rate objf objf valid_objf valid_objf
                   epoch) ;;
           ret {| best_objf := objf;
                  best_valid_objf := valid_objf;
                  best_epoch := epoch |}
         else ret best) ;;
      let model_path := epoch_model_path epoch in
      emit (EvSaveCheckpoint model_path true epoch curr_learning_rate objf
              valid_objf global_idx) ;;
      emit (EvSaveTrainingInfo (epoch_info_filename epoch) model_path epoch
              curr_learning_rate objf (best_objf best') valid_objf
              (best_valid_objf best') (best_epoch best')) ;;
      ret best'
  end.

(** The body of the loop over the epochs; the loop's variables are the
    best-epoch data and [global_batch_idx_train]. *)
Definition run_epoch (env : Env) (st : BestState * Z) (epoch : nat)
  : M (BestState * Z) :=
  emit (EvSetEpoch epoch) ;;
  emit (EvAddScalar "learning_rate" curr_learning_rate (Z.of_nat epoch)) ;;
  emit (EvLog INFO (MsgEpoch epoch curr_learning_rate)) ;;
  r <- train_one_epoch (train_dl env epoch) (valid_dl env)
         (graph_compiler env) epoch num_epochs (snd st) ;;
  best' <- save_epoch epoch (fst st) r ;;
  ret (best', snd r).

Fixpoint epoch_loop (env : Env) (epochs : list nat) (st : BestState * Z)
  : M (BestState * Z) :=
  match epochs with
  | [] => ret st
  | epoch :: rest => st' <- run_epoch env st epoch ;; epoch_loop env rest st'
  end.

Definition load_symbols : M unit :=
  setup (SymbolTableFromFile "data/lang/phones.txt") ;;
  setup (SymbolTableFromFile "data/lang/words.txt").

Definition build_graph_compiler (env : Env) : M unit :=
  logging_info "Loading L.fst" ;;
  setup (PathExists "data/lang/Linv.pt") ;;
  (if linv_pt_exists env
   then setup (TorchLoadFsa "data/lang/Linv.pt")
   else
     setup (ReadOpenfst "data/lang/L.fst.txt") ;;
     setup InvertArcSort ;;
     setup (TorchSaveFsa "data/lang/Linv.pt")) ;;
  setup NewCtcTrainingGraphCompiler ;;
  setup GetPhoneSymbols.

Definition build_data : M unit :=
  logging_info "About to get train cuts" ;;
  setup (CutSetFromJson "exp/data/cuts_train.json.gz") ;;
  logging_info "About to get dev cuts" ;;
  setup (CutSetFromJson "exp/data/cuts_devtest.json.gz") ;;
  logging_info "About to create train dataset" ;;
  setup NewK2SpeechRecognitionDataset ;;
  setup (NewSingleCutSampler 90000 true) ;;
  logging_info "About to create train dataloader" ;;
  setup (NewDataLoader 4) ;;
  logging_info "About to create dev dataset" ;;
  setup NewK2SpeechRecognitionDataset ;;
  setup (NewSingleCutSampler 90000 false) ;;
  logging_info "About to create dev dataloader" ;;
  setup (NewDataLoader 1).

Definition build_model_and_optimizer (env : Env) : M unit :=
  setup CudaIsAvailable ;;
  (if cuda_is_available env then ret tt
   else
     emit (EvLog ERROR (MsgText "No GPU detected!")) ;;
     raise (SystemExit (-1))) ;;
  logging_info "About to create model" ;;
  setup (NewTdnnLstm1b 80 (Z.of_nat (length (phone_ids env)) + 1) 4) ;;
  setup ModelToDevice ;;
  setup Describe ;;
  setup NewAdamW.

(** Lines 308-321: the best-epoch data at the start, from the checkpoint
    of the epoch before when [start_epoch] is not 0. *)
Definition initial_best (env : Env) : M (BestState * Z) :=
  if (0 <? start_epoch)%nat
  then
    fun w =>
      match load_checkpoint env
              (os_path_join exp_dir
                 ("epoch-" ++ format_nat (start_epoch - 1) ++ ".pt")%string) w
      with
      | (w', ckpt) =>
          ([EvLog INFO (MsgText "epoch, objf, valid_objf")], w',
           Ok ({| best_objf := ckpt_objf ckpt;
                  best_valid_objf := ckpt_valid_objf ckpt;
                  best_epoch := start_epoch |},
               ckpt_global_batch_idx_train ckpt))
      end
  else
    ret ({| best_objf := infinity;
            best_valid_objf := infinity;
            best_epoch := start_epoch |}, 0).

Definition main (env : Env) : M unit :=
  setup (FixRandomSeed 42) ;;
  setup (SetupLogger "exp-lstm-adam-ctc/log/log-train") ;;
  setup (NewSummaryWriter "exp-lstm-adam-ctc/tensorboard") ;;
  load_symbols ;;
  build_graph_compiler env ;;
  build_data ;;
  build_model_and_optimizer env ;;
  st <- initial_best env ;;
  epoch_loop env (seq start_epoch (num_epochs - start_epoch)) st ;;
  emit (EvLog WARNING (MsgText "Done")).

(** A run of [main] starts with the model and the optimizer that the
    constructors will return. *)
Definition run_main (env : Env) : list event * World * result unit :=
  main env {| w_model := new_model env; w_optimizer := new_optimizer env |}.

End Script.

Arguments EvSetup {E}.
Arguments EvLog {E}.
Arguments EvAddScalar {E}.
Arguments EvSetEpoch {E}.
Arguments EvModelTrain {E}.
Arguments EvModelEval {E}.
Arguments EvModelCall {E}.
Arguments EvCompile {E}.
Arguments EvDenseFsaVec {E}.
Arguments EvIntersectDense {E}.
Arguments EvGetTotScores {E}.
Arguments EvOptimizerStep {E}.
Arguments EvObjf {E}.
Arguments EvSaveCheckpoint {E}.
Arguments EvSaveTrainingInfo {E}.
Arguments inputs {E}.
Arguments supervisions {E}.
Arguments w_model {E}.
Arguments w_optimizer {E}.
Arguments cuda_is_available {E}.
Arguments linv_pt_exists {E}.
Arguments phone_ids {E}.
Arguments graph_compiler {E}.
Arguments train_dl {E}.
Arguments valid_dl {E}.
Arguments new_model {E}.
Arguments new_optimizer {E}.
Arguments load_checkpoint {E}.
Arguments trace_of {E A}.
Arguments world_of {E A}.
Arguments result_of {E A}.
Arguments ret {E A}.
Arguments bind {E A B}.
Arguments raise {E A}.
Arguments emit {E}.
Arguments lift {E A}.
Arguments for_enumerate {E X St}.

(** ** A small instance, to run the script on

    Features are the per-sequence total scores themselves, the network is
    the identity, a lattice is the list of its total scores, and the
    model is the number of optimizer steps taken. *)

Module Toy.

Definition seq_score (nnet : list float) (s : segment) : float :=
  nth (Z.to_nat (fst (fst s))) nnet neg_infinity.

Definition E : Externals := {|
  Feature := list float;
  NnetOutput := list float;
  Model := Z;
  Optimizer := unit;
  GraphCompiler := unit;
  Fsa := list float;
  DenseFsaVec := list float;
  ndim := fun _ => 3%nat;
  subsampling_factor := fun _ => 4;
  model_call := fun _ feature => feature;
  model_train := fun m => m;
  model_eval := fun m => m;
  compile := fun _ _ => [];
  dense_fsa_vec := fun nnet segs => map (seq_score nnet) segs;
  intersect_dense := fun _ dense _ => dense;
  get_tot_scores := fun lattice _ _ => lattice;
  backward_and_step := fun o m _ => (m + 1, o);
  tot_scores_per_segment := fun _ nnet segs _ _ _ =>
    length_map (seq_score nnet) segs
|}.

Definition batch (scores : list float) (frames : list Z) (texts : list string)
  : Batch E :=
  Build_Batch E scores
    {| sequence_idx := map Z.of_nat (seq 0 (length frames));
       start_frame := map (fun _ => 0) frames;
       num_frames := frames;
       text := texts |}.

Definition world : World E := Build_World E 0 tt.

Definition env (train : nat -> list (Batch E)) (valid : list (Batch E))
  : Env E :=
  Build_Env E true true [1; 2; 3] tt train valid 0 tt
    (fun _ w =>
       (w, {| ckpt_epoch := 0; ckpt_objf := infinity;
              ckpt_valid_objf := infinity;
              ckpt_global_batch_idx_train := 0 |})).

Definition two_segments : Batch E :=
  batch [(-3)%float; (-5)%float] [40; 80] ["uno"%string; "dos"%string].

End Toy.

(** * Vocabulary of the properties *)

(** The indexes of the successful segments, and the entries of a tensor
    at a list of indexes. *)
Definition successful_indexes (tot_scores : list float) : list nat :=
  filter (fun i => successful (nth i tot_scores neg_infinity))
    (seq 0 (length tot_scores)).

Definition gather {A : Type} (d : A) (t : list A) (indexes : list nat)
  : list A :=
  map (fun i => nth i t d) indexes.


Definition objf_of_scores (scores : list float) (segs : list segment)
  : float * Z * Z :=
  ((- Torch.fsum (filter successful scores))%float,
   Torch.isum (frames_of_successful scores (map seg_frames segs)),
   Torch.isum (map seg_frames segs)).

(** The per-batch values as three columns, and their sums in Python's
    float arithmetic, each starting from [0.]. *)
Definition column_sums (rs : list (float * Z * Z)) : totals :=
  (Torch.fsum (map (fun r => fst (fst r)) rs),
   Torch.fsum (map (fun r => float_of_int (snd (fst r))) rs),
   Torch.fsum (map (fun r => float_of_int (snd r)) rs)).

(** [ge_float x y]: [y <= x] in Python. *)
Definition ge_float (x y : float) : Prop := (y <=? x)%float = true.

(** A list that descends from [b], step by step. *)
Fixpoint descending_from (b : float) (l : list float) : Prop :=
  match l with
  | [] => True
  | x :: rest => ge_float b x /\ descending_from x rest
  end.



Section Vocabulary.

Context {E : Externals}.

(** The total scores of a batch: the scores of the lattice that
    intersects the one graph compiled from the texts with the network's
    output on the supervision segments. *)
Definition batch_tot_scores (graph_compiler : GraphCompiler E)
  (model : Model E) (batch : Batch E) (segs : list segment)
  (texts : list string) : list float :=
  get_tot_scores E
    (intersect_dense E (compile E graph_compiler texts)
       (dense_fsa_vec E (model_call E model (inputs batch)) segs) 10)
    true true.

Definition objf_events (graph_compiler : GraphCompiler E) (model : Model E)
  (batch : Batch E) (segs : list segment) (texts : list string)
  (training : bool) : list (event E) :=
  let decoding_graph := compile E graph_compiler texts in
  let dense := dense_fsa_vec E (model_call E model (inputs batch)) segs in
  let r := objf_of_scores
             (batch_tot_scores graph_compiler model batch segs texts) segs in
  [EvModelCall training; EvCompile texts; EvDenseFsaVec segs;
   EvIntersectDense decoding_graph dense 10; EvGetTotScores true true]
  ++ (if training then [EvOptimizerStep 5] else [])
  ++ [EvObjf training (fst (fst r)) (snd (fst r)) (snd r)].

Definition world_after_objf (graph_compiler : GraphCompiler E)
  (batch : Batch E) (segs : list segment) (texts : list string)
  (training : bool) (w : World E) : World E :=
  if training then
    let target_graph :=
      intersect_dense E (compile E graph_compiler texts)
        (dense_fsa_vec E (model_call E (w_model w) (inputs batch)) segs) 10 in
    Build_World E
      (fst (backward_and_step E (w_optimizer w) (w_model w) target_graph))
      (snd (backward_and_step E (w_optimizer w) (w_model w) target_graph))
  else w.

(** Every event a computation emits, from any world, satisfies [P]. *)
Definition emits {A : Type} (P : event E -> Prop) (c : M E A) : Prop :=
  forall w, Forall P (trace_of (c w)).

(** The values [get_objf] returned, as the trace recorded them, for the
    training calls or for the validation calls. *)
Definition objf_returns (training : bool) (t : list (event E))
  : list (float * Z * Z) :=
  flat_map
    (fun ev =>
       match ev with
       | EvObjf tr objf frames all_frames =>
           if Bool.eqb tr training then [(objf, frames, all_frames)] else []
       | _ => []
       end) t.

Definition is_objf (training : bool) (ev : event E) : Prop :=
  match ev with
  | EvObjf tr _ _ _ => tr = training
  | _ => False
  end.

(** The events of one call of [get_objf]. *)
Definition batch_event (training : bool) (ev : event E) : Prop :=
  match ev with
  | EvModelCall tr | EvObjf tr _ _ _ => tr = training
  | EvOptimizerStep _ => training = true
  | EvCompile _ | EvDenseFsaVec _ | EvIntersectDense _ _ _
  | EvGetTotScores _ _ => True
  | _ => False
  end.



(** The events of a validation pass and of its report. *)
Definition is_validation (ev : event E) : Prop :=
  match ev with
  | EvModelEval | EvModelCall false | EvObjf false _ _ _
  | EvLog _ (MsgValidation _ _ _) => True
  | EvAddScalar tag _ _ => tag = "train/global_valid_average_objf"%string
  | _ => False
  end.

(** Writing the best model or the best-epoch info file. *)
Definition saves_best (ev : event E) : Prop :=
  match ev with
  | EvSaveCheckpoint filename _ _ _ _ _ _ => filename = best_model_path
  | EvSaveTrainingInfo filename _ _ _ _ _ _ _ _ =>
      filename = best_epoch_info_filename
  | _ => False
  end.

(** What [train_one_epoch] emits: no set-up call, no start of an epoch
    and nothing saved. *)
Definition training_event (ev : event E) : Prop :=
  match ev with
  | EvSetup _ | EvSetEpoch _ | EvSaveCheckpoint _ _ _ _ _ _ _
  | EvSaveTrainingInfo _ _ _ _ _ _ _ _ _ => False
  | _ => True
  end.

(** The checkpoint and the info file of an epoch. *)
Definition saves_epoch_model (epoch : nat) (ev : event E) : Prop :=
  match ev with
  | EvSaveCheckpoint filename with_optimizer e _ _ _ _ =>
      filename = epoch_model_path epoch /\ with_optimizer = true /\ e = epoch
  | _ => False
  end.

Definition saves_epoch_info (epoch : nat) (ev : event E) : Prop :=
  match ev with
  | EvSaveTrainingInfo filename model_path e _ _ _ _ _ _ =>
      filename = epoch_info_filename epoch
      /\ model_path = epoch_model_path epoch /\ e = epoch
  | _ => False
  end.

Definition saves_epoch (epoch : nat) (t : list (event E)) : Prop :=
  Exists (saves_epoch_model epoch) t /\ Exists (saves_epoch_info epoch) t.

(** The values of [best_valid_objf] that the info files record, in the
    order in which they are written. *)
Definition best_history (t : list (event E)) : list float :=
  flat_map
    (fun ev =>
       match ev with
       | EvSaveTrainingInfo _ _ _ _ _ _ _ best_valid _ => [best_valid]
       | _ => []
       end) t.

Definition saves_best_model (ev : event E) : Prop :=
  match ev with
  | EvSaveCheckpoint filename _ _ _ _ _ _ => filename = best_model_path
  | _ => False
  end.

Definition saves_best_info (ev : event E) : Prop :=
  match ev with
  | EvSaveTrainingInfo filename _ _ _ _ _ _ _ _ =>
      filename = best_epoch_info_filename
  | _ => False
  end.

Definition no_info (ev : event E) : Prop :=
  match ev with
  | EvSaveTrainingInfo _ _ _ _ _ _ _ _ _ => False
  | _ => True
  end.

Definition not_saving (ev : event E) : Prop :=
  match ev with
  | EvSaveCheckpoint _ _ _ _ _ _ _ | EvSaveTrainingInfo _ _ _ _ _ _ _ _ _ =>
      False
  | _ => True
  end.


Definition is_log (ev : event E) : Prop :=
  match ev with
  | EvLog _ _ => True
  | _ => False
  end.

(** Saving something for epoch [epoch]. *)
Definition is_save (epoch : nat) (ev : event E) : Prop :=
  match ev with
  | EvSaveCheckpoint _ _ e _ _ _ _ | EvSaveTrainingInfo _ _ e _ _ _ _ _ _ =>
      e = epoch
  | _ => False
  end.


Definition is_setup (ev : event E) : Prop :=
  match ev with
  | EvSetup _ => True
  | _ => False
  end.


End Vocabulary.



(** ** Vocabulary of the further properties *)
(** The supervision segments before they are sorted: sequence index,
    start and number of frames after subsampling, as int32. *)
Definition subsampled_rows (sup : Supervisions) (subsampling : Z)
  : list segment :=
  to_int32
    (combine
       (combine (sequence_idx sup)
          (map (fun x => x / subsampling) (start_frame sup)))
       (map (fun x => x / subsampling) (num_frames sup))).

(** Segments in the order of decreasing number of frames. *)
Definition longest_first (a b : segment) : Prop :=
  seg_frames b <= seg_frames a.

(** The segment read at an index out of range (never read where the
    indexes are in range). *)
Definition no_segment : segment := (0, 0, 0).

(** The order in which the sorting leaves the keys with their indexes. *)
Definition by_key_desc (p q : Z * nat) : Prop := fst q <= fst p.

Section VocabularyCalls.

Context {E : Externals}.


Definition model_calls (t : list (event E)) : list bool :=
  flat_map
    (fun ev => match ev with EvModelCall training => [training] | _ => [] end)
    t.

End VocabularyCalls.

(** Validation is due at the batches whose index is a positive multiple
    of 200 (line 201). *)
Definition validation_due (batch_idx : nat) : bool :=
  ((0 <? batch_idx) && (batch_idx mod 200 =? 0))%nat.

Section VocabularyCounts.

Context {E : Externals}.

Definition is_optimizer_step (ev : event E) : bool :=
  match ev with
  | EvOptimizerStep _ => true
  | _ => false
  end.

Definition is_model_eval (ev : event E) : bool :=
  match ev with
  | EvModelEval => true
  | _ => false
  end.

(** How many events of a kind a trace has. *)
Definition count_events (p : event E -> bool) (t : list (event E)) : nat :=
  length (filter p t).

End VocabularyCounts.

(** The last character of a string, [d] for the empty one. *)
Fixpoint last_char (s : string) (d : ascii) : ascii :=
  match s with
  | EmptyString => d
  | String c rest => last_char rest c
  end.

Section VocabularyMain.

Context {E : Externals}.

(** What the training of an epoch can emit: calls of [get_objf], changes
    of mode, progress lines at level INFO and tensorboard scalars. *)
Definition epoch_event (ev : event E) : Prop :=
  match ev with
  | EvLog INFO _ | EvAddScalar _ _ _ | EvModelTrain | EvModelEval
  | EvModelCall _ | EvCompile _ | EvDenseFsaVec _ | EvIntersectDense _ _ _
  | EvGetTotScores _ _ | EvOptimizerStep _ | EvObjf _ _ _ _ => True
  | _ => False
  end.

(** What is saved is consistent: an epoch of the run, a best epoch that
    is not a later one, and a best validation objective that the
    epoch's own is not below. *)
Definition save_ok (ev : event E) : Prop :=
  match ev with
  | EvSaveCheckpoint _ _ epoch _ _ _ _ => (epoch < num_epochs)%nat
  | EvSaveTrainingInfo _ _ epoch _ _ _ valid_objf best_valid best_epoch =>
      (epoch < num_epochs)%nat /\ (best_epoch <= epoch)%nat
      /\ (valid_objf <? best_valid)%float = false
  | _ => True
  end.

Definition is_warning (ev : event E) : Prop :=
  match ev with
  | EvLog WARNING _ => True
  | _ => False
  end.

(** The loop of [main] with the line logged after it, and the state it
    starts from when [start_epoch] is 0. *)
Definition first_state : BestState * Z :=
  ({| best_objf := infinity; best_valid_objf := infinity;
      best_epoch := start_epoch |}, 0).

Definition main_loop (env : Env E) : M E unit :=
  bind (epoch_loop E env (seq start_epoch (num_epochs - start_epoch))
          first_state)
    (fun _ => emit (EvLog WARNING (MsgText "Done"))).

(** The calls of [main] before the loop. *)
Definition main_setup (env : Env E) : M E unit :=
  bind (setup E (FixRandomSeed 42))
    (fun _ =>
       bind (setup E (SetupLogger "exp-lstm-adam-ctc/log/log-train"))
         (fun _ =>
            bind (setup E (NewSummaryWriter "exp-lstm-adam-ctc/tensorboard"))
              (fun _ =>
                 bind (load_symbols E)
                   (fun _ =>
                      bind (build_graph_compiler E env)
                        (fun _ =>
                           bind (build_data E)
                             (fun _ => build_model_and_optimizer E env)))))).

(** Every exception a computation raises, from any world, satisfies
    [P]. *)
Definition raises {A : Type} (P : exn -> Prop) (c : M E A) : Prop :=
  forall w e, result_of (c w) = Raise e -> P e.

(** The exceptions of the script's own checks on a batch, and those of
    the training of an epoch. *)
Definition batch_error (e : exn) : Prop :=
  e = RuntimeError \/ e = IndexError \/ e = AssertionError.

Definition training_error (e : exn) : Prop :=
  e = ZeroDivisionError \/ batch_error e.

(** The batches of the epochs from [first] up to and including [last]. *)
Definition batches_through (env : Env E) (first last : nat) : Z :=
  zsum (map (fun e => Z.of_nat (length (train_dl env e)))
          (seq first (S last - first))).

(** A checkpoint of an epoch from [first] on records, as the number of
    batches trained, [before] and the batches of the epochs from [first]
    through its own. *)
Definition counts_batches (env : Env E) (first : nat) (before : Z)
  (ev : event E) : Prop :=
  match ev with
  | EvSaveCheckpoint _ _ epoch _ _ _ global_idx =>
      (first <= epoch)%nat
      /\ global_idx = before + batches_through env first epoch
  | _ => True
  end.

End VocabularyMain.

(** * Properties

    ** The tensor operations *)

Example get_tot_objf_and_num_frames_ex :
  get_tot_objf_and_num_frames
    [(-1.5)%float; neg_infinity; (-2.5)%float] [10; 20; 30]
  = Some ((-4)%float, 40, 60).
Proof. vm_compute. reflexivity. Qed.

Section TensorFacts.

Lemma wrap64_idem_add (a x : Z) : wrap64 (wrap64 a + x) = wrap64 (a + x).
Proof.
  unfold wrap64, wrap.
  replace ((a + 2 ^ (64 - 1)) mod 2 ^ 64 - 2 ^ (64 - 1) + x + 2 ^ (64 - 1))
    with ((a + 2 ^ (64 - 1)) mod 2 ^ 64 + x) by ring.
  rewrite Z.add_mod_idemp_l by (vm_compute; discriminate).
  f_equal. f_equal. ring.
Qed.

Lemma wrap64_small (z : Z) :
  - 2 ^ 63 <= z < 2 ^ 63 -> wrap64 z = z.
Proof.
  intros H. unfold wrap64, wrap.
  change (2 ^ (64 - 1)) with (2 ^ 63).
  rewrite Z.mod_small; [ring|].
  change (2 ^ 64) with (2 * 2 ^ 63). lia.
Qed.

Lemma isum_from (l : list Z) (a : Z) :
  fold_left (fun acc x => wrap64 (acc + x)) l (wrap64 a) = wrap64 (a + zsum l).
Proof.
  revert a. induction l as [|x l IH]; intros a; simpl.
  - f_equal. ring.
  - rewrite wrap64_idem_add, IH. f_equal. ring.
Qed.

Lemma isum_zsum (l : list Z) : Torch.isum l = wrap64 (zsum l).
Proof.
  unfold Torch.isum. change 0 with (wrap64 0) at 1.
  rewrite isum_from. reflexivity.
Qed.

Lemma zsum_bounds (l : list Z) (lo hi : Z) :
  Forall (fun x => lo <= x <= hi) l ->
  Z.of_nat (length l) * lo <= zsum l <= Z.of_nat (length l) * hi.
Proof.
  induction 1 as [|x l Hx _ IH]; simpl length; simpl zsum; [lia|].
  rewrite Nat2Z.inj_succ. lia.
Qed.

Context {A B : Type} (keep : A -> bool).

(** Gathering at the indexes of the true entries of a mask is filtering:
    the index tensor built by [nonzero] selects, in order, exactly the
    positions whose entry passes the test. *)
Lemma index_select_nonzero_from (ts : list A) :
  forall (fs pre : list B),
    length ts = length fs ->
    Torch.index_select (pre ++ fs)
      (Torch.nonzero_from (length pre) (map keep ts))
    = Some (map snd (filter (fun p => keep (fst p)) (combine ts fs))).
Proof.
  induction ts as [|a ts IH]; intros [|b fs] pre Hlen; simpl in Hlen;
    try discriminate; [reflexivity|].
  injection Hlen as Hlen.
  assert (Hnext : Torch.index_select (pre ++ b :: fs)
            (Torch.nonzero_from (S (length pre)) (map keep ts))
          = Some (map snd (filter (fun p => keep (fst p)) (combine ts fs)))).
  { specialize (IH fs (pre ++ [b]) Hlen).
    rewrite <- app_assoc, length_app, Nat.add_comm in IH. exact IH. }
  simpl. destruct (keep a); simpl; [|exact Hnext].
  rewrite Hnext, nth_error_app2, Nat.sub_diag by lia. reflexivity.
Qed.

Lemma index_select_nonzero (ts : list A) (fs : list B) :
  length ts = length fs ->
  Torch.index_select fs (Torch.nonzero (map keep ts))
  = Some (map snd (filter (fun p => keep (fst p)) (combine ts fs))).
Proof. intros H. exact (index_select_nonzero_from ts fs [] H). Qed.


End TensorFacts.

Lemma filter_combine_diag {A : Type} (keep : A -> bool) (ts : list A) :
  map snd (filter (fun p => keep (fst p)) (combine ts ts)) = filter keep ts.
Proof.
  induction ts as [|a ts IH]; simpl; [reflexivity|].
  destruct (keep a); simpl; congruence.
Qed.

Lemma get_tot_objf_and_num_frames_eq (ts : list float) (fs : list Z) :
  length ts = length fs ->
  get_tot_objf_and_num_frames ts fs
  = Some (Torch.fsum (filter successful ts),
          Torch.isum (frames_of_successful ts fs),
          Torch.isum fs).
Proof.
  intros Hlen. unfold get_tot_objf_and_num_frames, Torch.ne.
  change (fun x => negb (PrimFloat.eqb x neg_infinity)) with successful.
  rewrite (index_select_nonzero successful ts fs Hlen).
  rewrite (index_select_nonzero successful ts ts eq_refl).
  rewrite filter_combine_diag. reflexivity.
Qed.

Lemma filter_combine_gather {A B : Type} (keep : A -> bool) (da : A) (db : B)
  (ts : list A) :
  forall (fs : list B) (pre_t : list A) (pre_f : list B),
    length ts = length fs ->
    length pre_t = length pre_f ->
    map snd (filter (fun p => keep (fst p)) (combine ts fs))
    = gather db (pre_f ++ fs)
        (filter (fun i => keep (nth i (pre_t ++ ts) da))
           (seq (length pre_t) (length ts))).
Proof.
  induction ts as [|a ts IH]; intros [|b fs] pre_t pre_f Hlen Hpre;
    simpl in Hlen; try discriminate; [reflexivity|].
  injection Hlen as Hlen.
  specialize (IH fs (pre_t ++ [a]) (pre_f ++ [b]) Hlen).
  rewrite !length_app, <- !app_assoc in IH. simpl in IH.
  rewrite !Nat.add_1_r in IH. specialize (IH (f_equal S Hpre)).
  simpl. rewrite app_nth2, Nat.sub_diag by lia. simpl.
  destruct (keep a); simpl; rewrite IH; [|reflexivity].
  rewrite Hpre, app_nth2, Nat.sub_diag by lia. reflexivity.
Qed.

Lemma frames_of_successful_gather (ts : list float) (fs : list Z) :
  length ts = length fs ->
  frames_of_successful ts fs = gather 0 fs (successful_indexes ts).
Proof.
  intros Hlen.
  exact (filter_combine_gather successful neg_infinity 0 ts fs [] [] Hlen
           eq_refl).
Qed.


Lemma successful_indexes_spec (ts : list float) (i : nat) :
  In i (successful_indexes ts) <->
  (i < length ts)%nat /\ is_neg_inf (nth i ts neg_infinity) = false.
Proof.
  unfold successful_indexes, successful.
  rewrite filter_In, in_seq, negb_true_iff. intuition lia.
Qed.

Lemma gather_successful_bounds (ts : list float) (fs : list Z) (lo hi : Z) :
  length ts = length fs ->
  Forall (fun x => lo <= x <= hi) fs ->
  Forall (fun x => lo <= x <= hi) (gather 0 fs (successful_indexes ts))
  /\ (length (gather 0%Z fs (successful_indexes ts)) <= length fs)%nat.
Proof.
  intros Hlen Hall. split.
  - apply Forall_forall. intros x Hx. unfold gather in Hx.
    apply in_map_iff in Hx as (i & <- & Hi).
    apply successful_indexes_spec in Hi as [Hi _].
    rewrite Forall_forall in Hall. apply Hall, nth_In. lia.
  - unfold gather, successful_indexes. rewrite length_map, <- Hlen.
    etransitivity; [apply filter_length_le|]. now rewrite length_seq.
Qed.

(** Within the int64 range the sums of frame counts are exact: int32 frame
    counts of fewer than 2^32 segments cannot wrap. *)
Lemma wrap64_zsum_exact (frames : list Z) :
  Forall (fun x => - 2 ^ 31 <= x <= 2 ^ 31 - 1) frames ->
  Z.of_nat (length frames) < 2 ^ 32 ->
  wrap64 (zsum frames) = zsum frames.
Proof.
  intros Hall Hlen. apply wrap64_small.
  pose proof (zsum_bounds frames _ _ Hall) as [Hlo Hhi].
  assert (0 <= Z.of_nat (length frames)) by lia.
  change (2 ^ 63) with (2 ^ 32 * 2 ^ 31).
  change (2 ^ 32) with 4294967296 in *.
  change (2 ^ 31) with 2147483648 in *. nia.
Qed.



(** ** Sorting the supervisions *)

Lemma insert_desc_perm (k : Z) (i : nat) (l : list (Z * nat)) :
  Permutation (insert_desc k i l) ((k, i) :: l).
Proof.
  induction l as [|[k' i'] l IH]; simpl; [reflexivity|].
  destruct (k' <=? k); [reflexivity|].
  rewrite IH. apply perm_swap.
Qed.

Lemma map_snd_combine_seq (keys : list Z) (start : nat) :
  map snd (combine keys (seq start (length keys))) = seq start (length keys).
Proof.
  revert start. induction keys as [|k keys IH]; intros start; simpl;
    [reflexivity|].
  f_equal. apply IH.
Qed.

Lemma argsort_desc_perm (keys : list Z) :
  Permutation (argsort_desc keys) (seq 0 (length keys)).
Proof.
  unfold argsort_desc. rewrite <- (map_snd_combine_seq keys 0) at 2.
  apply Permutation_map.
  induction (combine keys (seq 0 (length keys))) as [|[k i] l IH]; simpl;
    [reflexivity|].
  rewrite insert_desc_perm. apply perm_skip, IH.
Qed.




(** ** Running the monad *)

Section ScriptFacts.

Context {E : Externals}.

Lemma bind_ok {A B : Type} (c : M E A) (f : A -> M E B) (w w1 : World E)
  (t1 : list (event E)) (a : A) :
  c w = (t1, w1, Ok a) ->
  bind c f w = (t1 ++ trace_of (f a w1), world_of (f a w1), result_of (f a w1)).
Proof.
  intros H. unfold bind. rewrite H.
  destruct (f a w1) as [[t2 w2] r]. reflexivity.
Qed.

Lemma bind_raise {A B : Type} (c : M E A) (f : A -> M E B) (w w1 : World E)
  (t1 : list (event E)) (e : exn) :
  c w = (t1, w1, Raise e) -> bind c f w = (t1, w1, Raise e).
Proof. intros H. unfold bind. rewrite H. reflexivity. Qed.

(** Every run of [bind] is one of the two above. *)
Lemma bind_cases {A B : Type} (c : M E A) (f : A -> M E B) (w : World E) :
  (exists a, result_of (c w) = Ok a
     /\ trace_of (bind c f w)
        = trace_of (c w) ++ trace_of (f a (world_of (c w)))
     /\ world_of (bind c f w) = world_of (f a (world_of (c w)))
     /\ result_of (bind c f w) = result_of (f a (world_of (c w))))
  \/ (exists e, result_of (c w) = Raise e
        /\ trace_of (bind c f w) = trace_of (c w)
        /\ world_of (bind c f w) = world_of (c w)
        /\ result_of (bind c f w) = Raise e).
Proof.
  unfold bind, trace_of, world_of, result_of.
  destruct (c w) as [[t1 w1] [a|e]].
  - left. exists a. simpl. destruct (f a w1) as [[t2 w2] r]. simpl. auto.
  - right. exists e. simpl. auto.
Qed.

(** ** get_objf in closed form *)

Lemma get_objf_run (batch : Batch E) (gc : GraphCompiler E) (training : bool)
  (w : World E) (segs : list segment) (texts : list string) :
  sorted_supervisions (supervisions batch) (subsampling_factor E (w_model w))
  = Ok (segs, texts) ->
  ndim E (inputs batch) = 3%nat ->
  get_objf E batch gc training w
  = (objf_events gc (w_model w) batch segs texts training,
     world_after_objf gc batch segs texts training w,
     Ok (objf_of_scores (batch_tot_scores gc (w_model w) batch segs texts)
           segs)).
Proof.
  intros Hsup Hndim.
  unfold get_objf, bind, get_model, lift, py_assert, emit, ret.
  rewrite Hsup, Hndim. simpl.
  rewrite get_tot_objf_and_num_frames_eq
    by (rewrite tot_scores_per_segment, length_map; reflexivity).
  simpl. unfold objf_events, world_after_objf, objf_of_scores,
    batch_tot_scores, optimizer_step.
  destruct training; simpl; [|reflexivity].
  destruct (backward_and_step E _ _ _) as [m o]. reflexivity.
Qed.

Lemma get_objf_raise_sup (batch : Batch E) (gc : GraphCompiler E)
  (training : bool) (w : World E) (e : exn) :
  sorted_supervisions (supervisions batch) (subsampling_factor E (w_model w))
  = Raise e ->
  get_objf E batch gc training w = ([], w, Raise e).
Proof.
  intros Hsup. unfold get_objf, bind, get_model, lift. rewrite Hsup.
  reflexivity.
Qed.

Lemma get_objf_raise_ndim (batch : Batch E) (gc : GraphCompiler E)
  (training : bool) (w : World E) (segs : list segment)
  (texts : list string) :
  sorted_supervisions (supervisions batch) (subsampling_factor E (w_model w))
  = Ok (segs, texts) ->
  ndim E (inputs batch) <> 3%nat ->
  get_objf E batch gc training w = ([], w, Raise AssertionError).
Proof.
  intros Hsup Hndim. apply Nat.eqb_neq in Hndim.
  unfold get_objf, bind, get_model, lift, py_assert. rewrite Hsup, Hndim.
  reflexivity.
Qed.

(** A call of [get_objf] either raises before anything is computed, or
    runs through as [get_objf_run] has it. *)
Lemma get_objf_cases (batch : Batch E) (gc : GraphCompiler E)
  (training : bool) (w : World E) :
  (exists e, get_objf E batch gc training w = ([], w, Raise e))
  \/ (exists segs texts,
        sorted_supervisions (supervisions batch)
          (subsampling_factor E (w_model w)) = Ok (segs, texts)
        /\ get_objf E batch gc training w
           = (objf_events gc (w_model w) batch segs texts training,
              world_after_objf gc batch segs texts training w,
              Ok (objf_of_scores
                    (batch_tot_scores gc (w_model w) batch segs texts) segs))).
Proof.
  destruct (sorted_supervisions (supervisions batch)
              (subsampling_factor E (w_model w))) as [[segs texts]|e] eqn:Hsup.
  - destruct (Nat.eq_dec (ndim E (inputs batch)) 3) as [Hndim|Hndim].
    + right. exists segs, texts. split; [reflexivity|].
      apply get_objf_run; assumption.
    + left. exists AssertionError.
      apply (get_objf_raise_ndim _ _ _ _ segs texts); assumption.
  - left. exists e. apply get_objf_raise_sup. exact Hsup.
Qed.

(** ** What a computation can emit *)

Lemma emits_ret {A : Type} (P : event E -> Prop) (a : A) : emits P (ret a).
Proof. intros w. constructor. Qed.

Lemma emits_raise {A : Type} (P : event E -> Prop) (e : exn) :
  emits P (raise (A := A) e).
Proof. intros w. constructor. Qed.

Lemma emits_lift {A : Type} (P : event E -> Prop) (r : result A) :
  emits P (lift r).
Proof. intros w. constructor. Qed.

Lemma emits_get_model (P : event E -> Prop) : emits P (get_model E).
Proof. intros w. constructor. Qed.

Lemma emits_put_model (P : event E -> Prop) (m : Model E) :
  emits P (put_model E m).
Proof. intros w. constructor. Qed.

Lemma emits_emit (P : event E -> Prop) (ev : event E) :
  P ev -> emits P (emit ev).
Proof. intros H w. repeat constructor. exact H. Qed.

Lemma emits_bind {A B : Type} (P : event E -> Prop) (c : M E A)
  (f : A -> M E B) :
  emits P c -> (forall a, emits P (f a)) -> emits P (bind c f).
Proof.
  intros Hc Hf w.
  destruct (bind_cases c f w) as [(a & _ & -> & _) | (e & _ & -> & _)].
  - apply Forall_app. split; [apply Hc | apply Hf].
  - apply Hc.
Qed.

Lemma emits_py_div (P : event E -> Prop) (x y : float) :
  emits P (py_div E x y).
Proof.
  unfold py_div. destruct (PrimFloat.eqb y 0); [apply emits_raise|apply emits_ret].
Qed.

Lemma emits_py_assert (P : event E -> Prop) (b : bool) :
  emits P (py_assert E b).
Proof. destruct b; [apply emits_ret|apply emits_raise]. Qed.

Lemma emits_for_enumerate {X St : Type} (P : event E -> Prop)
  (body : St -> nat -> X -> M E St) (xs : list X) :
  (forall s idx x, emits P (body s idx x)) ->
  forall idx s, emits P (for_enumerate body idx xs s).
Proof.
  intros Hbody. induction xs as [|x xs IH]; intros idx s; simpl.
  - apply emits_ret.
  - apply emits_bind; [apply Hbody|]. intros s'. apply IH.
Qed.

Lemma emits_optimizer_step (P : event E -> Prop) (g : Fsa E) :
  P (EvOptimizerStep 5) -> emits P (optimizer_step E g).
Proof.
  intros H w. unfold optimizer_step.
  destruct (backward_and_step E _ _ _). repeat constructor. exact H.
Qed.

Lemma emits_at {A : Type} (P : event E -> Prop) (c : M E A) (w : World E) :
  emits P c -> Forall P (trace_of (c w)).
Proof. intros H. apply H. Qed.

Lemma Forall_bind {A B : Type} (P : event E -> Prop) (c : M E A)
  (f : A -> M E B) (w : World E) :
  Forall P (trace_of (c w)) ->
  (forall a, result_of (c w) = Ok a ->
             Forall P (trace_of (f a (world_of (c w))))) ->
  Forall P (trace_of (bind c f w)).
Proof.
  intros Hc Hf.
  destruct (bind_cases c f w) as [(a & Ha & -> & _) | (e & _ & -> & _)].
  - apply Forall_app. split; [exact Hc | exact (Hf a Ha)].
  - exact Hc.
Qed.

Lemma world_of_emit (ev : event E) (w : World E) : world_of (emit ev w) = w.
Proof. reflexivity. Qed.

Lemma emits_weaken {A : Type} (P Q : event E -> Prop) (c : M E A) :
  (forall ev, P ev -> Q ev) -> emits P c -> emits Q c.
Proof. intros H Hc w. exact (Forall_impl Q H (Hc w)). Qed.

End ScriptFacts.

(** One step of a proof that a computation emits only events of a kind:
    the structure of the computation is followed, the events themselves
    are left as goals. *)
Ltac emits_step :=
  match goal with
  | |- emits _ (ret _) => apply emits_ret
  | |- emits _ (raise _) => apply emits_raise
  | |- emits _ (lift _) => apply emits_lift
  | |- emits _ (get_model _) => apply emits_get_model
  | |- emits _ (put_model _ _) => apply emits_put_model
  | |- emits _ (py_div _ _ _) => apply emits_py_div
  | |- emits _ (py_assert _ _) => apply emits_py_assert
  | |- emits _ (optimizer_step _ _) => apply emits_optimizer_step
  | |- emits _ (emit _) => apply emits_emit
  | |- emits _ (setup _ _) => apply emits_emit
  | |- emits _ (logging_info _ _) => apply emits_emit
  | |- emits _ (bind _ _) => apply emits_bind; [|intros ?]
  | |- emits _ (for_enumerate _ _ _ _) =>
      apply emits_for_enumerate; intros ? ? ?
  | |- emits _ (match ?x with _ => _ end) => destruct x
  | |- emits _ (if ?b then _ else _) => destruct b
  end.

Section TraceFacts.

Context {E : Externals}.

Lemma objf_returns_app (training : bool) (t1 t2 : list (event E)) :
  objf_returns training (t1 ++ t2)
  = objf_returns training t1 ++ objf_returns training t2.
Proof. apply flat_map_app. Qed.

Lemma objf_returns_none (training : bool) (t : list (event E)) :
  Forall (fun ev => ~ is_objf training ev) t -> objf_returns training t = [].
Proof.
  induction 1 as [|ev t Hev _ IH]; simpl; [reflexivity|].
  rewrite IH, app_nil_r. destruct ev; try reflexivity.
  simpl in Hev.
  match goal with
  | |- context [Bool.eqb ?a ?b] => destruct (Bool.eqb_spec a b)
  end; [contradiction | reflexivity].
Qed.

Lemma get_objf_emits (batch : Batch E) (gc : GraphCompiler E)
  (training : bool) :
  emits (batch_event training) (get_objf E batch gc training).
Proof.
  unfold get_objf. repeat emits_step; simpl; auto.
Qed.

(** The trace records the value returned, once. *)
Lemma get_objf_returns (batch : Batch E) (gc : GraphCompiler E)
  (training : bool) (w : World E) (r : float * Z * Z) :
  result_of (get_objf E batch gc training w) = Ok r ->
  objf_returns training (trace_of (get_objf E batch gc training w)) = [r].
Proof.
  unfold get_objf, bind, get_model, lift, py_assert, emit, ret, raise,
    optimizer_step.
  destruct (sorted_supervisions _ _) as [[segs texts]|e]; simpl;
    [|discriminate].
  destruct (Nat.eqb _ 3); simpl; [|discriminate].
  destruct (get_tot_objf_and_num_frames _ _) as [[[s f] a]|]; simpl;
    [|discriminate].
  destruct training; simpl.
  - destruct (backward_and_step E _ _ _) as [m o]. simpl.
    intros H. injection H as <-. reflexivity.
  - intros H. injection H as <-. reflexivity.
Qed.

End TraceFacts.

(** ** The objective of a batch *)

Section Objective.

Context {E : Externals}.



End Objective.





(** ** The running totals *)

Section Totals.

Context {E : Externals}.

Lemma bind_ok_inv {A B : Type} (c : M E A) (f : A -> M E B) (w : World E)
  (b : B) :
  result_of (bind c f w) = Ok b ->
  exists a,
    result_of (c w) = Ok a
    /\ trace_of (bind c f w) = trace_of (c w) ++ trace_of (f a (world_of (c w)))
    /\ world_of (bind c f w) = world_of (f a (world_of (c w)))
    /\ result_of (f a (world_of (c w))) = Ok b.
Proof.
  intros H.
  destruct (bind_cases c f w) as [(a & Ha & Ht & Hw & Hr) | (e & _ & _ & _ & Hr)].
  - exists a. rewrite <- Hr. auto.
  - congruence.
Qed.

Lemma fold_add_batch (rs : list (float * Z * Z)) (a b c : float) :
  fold_left add_batch rs (a, b, c)
  = (fold_left PrimFloat.add (map (fun r => fst (fst r)) rs) a,
     fold_left PrimFloat.add (map (fun r => float_of_int (snd (fst r))) rs) b,
     fold_left PrimFloat.add (map (fun r => float_of_int (snd r)) rs) c).
Proof.
  revert a b c. induction rs as [|[[o f] n] rs IH]; intros a b c; simpl;
    [reflexivity|].
  apply IH.
Qed.

Lemma column_sums_fold (rs : list (float * Z * Z)) :
  fold_left add_batch rs (0%float, 0%float, 0%float) = column_sums rs.
Proof. apply fold_add_batch. Qed.

Lemma not_objf_of_batch_event (training : bool) (ev : event E) :
  batch_event (negb training) ev -> ~ is_objf training ev.
Proof.
  destruct ev; simpl; auto. intros -> H. now destruct training.
Qed.

Lemma validation_loop_totals (gc : GraphCompiler E) (bs : list (Batch E)) :
  forall (idx : nat) (acc acc' : totals) (w : World E),
    let run :=
      for_enumerate
        (fun acc (batch_idx : nat) batch =>
           bind (get_objf E batch gc false) (fun r => ret (add_batch acc r)))
        idx bs acc w in
    result_of run = Ok acc' ->
    length (objf_returns false (trace_of run)) = length bs
    /\ acc' = fold_left add_batch (objf_returns false (trace_of run)) acc.
Proof.
  induction bs as [|b bs IH]; intros idx acc acc' w; simpl.
  - intros H. injection H as <-. split; reflexivity.
  - intros H.
    apply bind_ok_inv in H as (acc1 & Hbody & -> & _ & Hrest).
    apply bind_ok_inv in Hbody as (r & Hobjf & -> & Hw & Hret).
    injection Hret as <-.
    apply IH in Hrest as [Hlen ->].
    rewrite !objf_returns_app, (get_objf_returns _ _ _ _ _ Hobjf).
    simpl. rewrite Hlen. split; reflexivity.
Qed.

Lemma validation_emits (dl : list (Batch E)) (gc : GraphCompiler E) :
  emits (fun ev => ~ is_objf true ev) (get_validation_objf E dl gc).
Proof.
  unfold get_validation_objf. repeat emits_step; simpl; auto.
  apply (emits_weaken (batch_event false)); [|apply get_objf_emits].
  apply (not_objf_of_batch_event true).
Qed.

Lemma train_batch_totals (vdl : list (Batch E)) (gc : GraphCompiler E)
  (current_epoch epochs : nat) (st st' : TrainState) (idx : nat)
  (b : Batch E) (w : World E) :
  let run := train_batch E vdl gc current_epoch epochs st idx b w in
  result_of run = Ok st' ->
  exists r,
    result_of (get_objf E b gc true w) = Ok r
    /\ objf_returns true (trace_of run) = [r]
    /\ ts_totals st' = add_batch (ts_totals st) r
    /\ global_batch_idx_train st' = global_batch_idx_train st + 1.
Proof.
  cbv zeta. unfold train_batch. intros H.
  apply bind_ok_inv in H as (r & Hobjf & -> & _ & H).
  exists r. split; [exact Hobjf|].
  rewrite objf_returns_app, (get_objf_returns _ _ _ _ _ Hobjf).
  rewrite objf_returns_none.
  2: { apply emits_at. unfold report_batch, validate, set_model_train.
       repeat emits_step; simpl; auto. apply validation_emits. }
  split; [reflexivity|].
  apply bind_ok_inv in H as (u & _ & _ & _ & H).
  apply bind_ok_inv in H as (v & _ & _ & _ & H).
  injection H as <-. split; reflexivity.
Qed.

Lemma train_loop_totals (vdl : list (Batch E)) (gc : GraphCompiler E)
  (current_epoch epochs : nat) (bs : list (Batch E)) :
  forall (idx : nat) (st st' : TrainState) (w : World E),
    let run :=
      for_enumerate (train_batch E vdl gc current_epoch epochs) idx bs st w in
    result_of run = Ok st' ->
    length (objf_returns true (trace_of run)) = length bs
    /\ ts_totals st'
       = fold_left add_batch (objf_returns true (trace_of run))
           (ts_totals st)
    /\ global_batch_idx_train st'
       = global_batch_idx_train st + Z.of_nat (length bs).
Proof.
  induction bs as [|b bs IH]; intros idx st st' w; simpl.
  - intros H. injection H as <-. repeat split. lia.
  - intros H.
    apply bind_ok_inv in H as (st1 & Hbody & -> & _ & Hrest).
    apply train_batch_totals in Hbody as (r & _ & Hr & Htot & Hidx).
    apply IH in Hrest as (Hlen & -> & ->).
    rewrite objf_returns_app, Hr. simpl. rewrite Hlen, Htot, Hidx.
    repeat split. lia.
Qed.

Lemma validation_sums (dl : list (Batch E)) (gc : GraphCompiler E)
  (w : World E) (tot : totals) :
  result_of (get_validation_objf E dl gc w) = Ok tot ->
  let rs := objf_returns false (trace_of (get_validation_objf E dl gc w)) in
  length rs = length dl /\ tot = column_sums rs.
Proof.
  intros H. unfold get_validation_objf in *.
  apply bind_ok_inv in H as (m & _ & -> & _ & H).
  apply bind_ok_inv in H as (u & _ & -> & _ & H).
  apply bind_ok_inv in H as (u' & _ & -> & _ & H).
  apply validation_loop_totals in H as [Hlen ->].
  simpl. rewrite column_sums_fold. split; [exact Hlen | reflexivity].
Qed.

Lemma train_loop_sums (dl vdl : list (Batch E)) (gc : GraphCompiler E)
  (current_epoch epochs : nat) (global_idx : Z) (w : World E)
  (st : TrainState) :
  result_of (train_loop E dl vdl gc current_epoch epochs global_idx w)
  = Ok st ->
  let rs :=
    objf_returns true
      (trace_of (train_loop E dl vdl gc current_epoch epochs global_idx w)) in
  length rs = length dl /\ ts_totals st = column_sums rs.
Proof.
  intros H. unfold train_loop in *.
  apply bind_ok_inv in H as (u & _ & -> & _ & H).
  apply train_loop_totals in H as (Hlen & -> & _).
  simpl. rewrite column_sums_fold. split; [exact Hlen | reflexivity].
Qed.

(** C5. The running totals are sums and nothing else: whenever
    [get_validation_objf] returns, and whenever the loop of
    [train_one_epoch] has run over its batches, [total_objf],
    [total_frames] and [total_all_frames] are the sums, from zero and in
    the order of the batches, of the values that the calls of [get_objf]
    on these batches returned, one call per batch. *)
Theorem totals_are_sums :
  (forall (dl : list (Batch E)) (gc : GraphCompiler E) (w : World E)
          (tot : totals),
      result_of (get_validation_objf E dl gc w) = Ok tot ->
      let rs := objf_returns false (trace_of (get_validation_objf E dl gc w)) in
      length rs = length dl /\ tot = column_sums rs)
  /\ (forall (dl vdl : list (Batch E)) (gc : GraphCompiler E)
             (current_epoch epochs : nat) (global_idx : Z) (w : World E)
             (st : TrainState),
         result_of (train_loop E dl vdl gc current_epoch epochs global_idx w)
         = Ok st ->
         let rs :=
           objf_returns true
             (trace_of
                (train_loop E dl vdl gc current_epoch epochs global_idx w)) in
         length rs = length dl /\ ts_totals st = column_sums rs)
  /\ (forall (batch : Batch E) (gc : GraphCompiler E) (training : bool)
             (w : World E) (r : float * Z * Z),
         result_of (get_objf E batch gc training w) = Ok r ->
         objf_returns training (trace_of (get_objf E batch gc training w))
         = [r]).
Proof.
  split; [exact validation_sums|]. split; [exact train_loop_sums|].
  exact get_objf_returns.
Qed.

End Totals.

Lemma totals_are_sums_witness :
  let run :=
    train_loop Toy.E [Toy.two_segments; Toy.two_segments] [] tt 0 8 0
      Toy.world in
  let rs := objf_returns true (trace_of run) in
  length rs = 2%nat
  /\ ts_totals {| ts_totals := (16%float, 60%float, 60%float);
                  valid_average_objf := infinity;
                  global_batch_idx_train := 2 |}
     = column_sums rs.
Proof.
  apply (proj1 (proj2 (totals_are_sums (E := Toy.E)))).
  vm_compute. reflexivity.
Defined.

(** ** Comparisons of floats *)

Section FloatOrder.

Lemma Prim2SF_infinity : Prim2SF infinity = S754_infinity false.
Proof. reflexivity. Qed.

(** Nothing is above plus infinity. *)
Lemma ltb_infinity_l (x : float) : (infinity <? x)%float = false.
Proof.
  rewrite FloatAxioms.ltb_spec, Prim2SF_infinity. unfold SFltb.
  destruct (Prim2SF x) as [s|[|]| |s m e]; reflexivity.
Qed.

Lemma ltb_leb (x y : float) :
  (x <? y)%float = true -> (x <=? y)%float = true.
Proof.
  rewrite FloatAxioms.ltb_spec, FloatAxioms.leb_spec. unfold SFltb, SFleb.
  destruct (SFcompare _ _) as [[| |]|]; congruence.
Qed.

Lemma SFcompare_refl (f : spec_float) :
  f <> S754_nan -> SFcompare f f = Some Eq.
Proof.
  destruct f as [s|s| |s m e]; intros H; simpl; try congruence.
  - destruct s; reflexivity.
  - rewrite Z.compare_refl, Pos.compare_cont_refl. destruct s; reflexivity.
Qed.

Lemma is_nan_false_iff (x : float) :
  PrimFloat.is_nan x = false <-> Prim2SF x <> S754_nan.
Proof.
  unfold PrimFloat.is_nan. rewrite negb_false_iff, FloatAxioms.eqb_spec. unfold SFeqb.
  split.
  - intros H Hnan. rewrite Hnan in H. discriminate.
  - intros H. rewrite (SFcompare_refl _ H). reflexivity.
Qed.

Lemma leb_refl (x : float) :
  PrimFloat.is_nan x = false -> (x <=? x)%float = true.
Proof.
  intros H. apply is_nan_false_iff in H.
  rewrite FloatAxioms.leb_spec. unfold SFleb. rewrite (SFcompare_refl _ H). reflexivity.
Qed.

Lemma ltb_not_nan_l (x y : float) :
  (x <? y)%float = true -> PrimFloat.is_nan x = false.
Proof.
  rewrite FloatAxioms.ltb_spec. unfold SFltb. intros H. apply is_nan_false_iff.
  intros Hnan. rewrite Hnan in H. discriminate.
Qed.

End FloatOrder.

(** ** Epochs of at most 200 batches *)

Section FewBatches.

Context {E : Externals}.

Lemma epoch_model_path_not_best (epoch : nat) :
  epoch_model_path epoch <> best_model_path.
Proof. unfold epoch_model_path, best_model_path. simpl. discriminate. Qed.

Lemma epoch_info_filename_not_best (epoch : nat) :
  epoch_info_filename epoch <> best_epoch_info_filename.
Proof.
  unfold epoch_info_filename, best_epoch_info_filename. simpl. discriminate.
Qed.

Lemma validation_not_due (batch_idx : nat) :
  (batch_idx < 200)%nat ->
  (0 <? batch_idx)%nat && (batch_idx mod 200 =? 0)%nat = false.
Proof.
  intros H. destruct batch_idx as [|n]; [reflexivity|].
  rewrite (Nat.mod_small _ _ H). apply andb_false_r.
Qed.

Lemma training_event_not_validation (ev : event E) :
  batch_event true ev -> ~ is_validation ev.
Proof. destruct ev; simpl; auto; intros ->; auto. Qed.

Lemma train_batch_few (vdl : list (Batch E)) (gc : GraphCompiler E)
  (current_epoch epochs : nat) (st : TrainState) (idx : nat) (b : Batch E)
  (w : World E) :
  (idx < 200)%nat ->
  let run := train_batch E vdl gc current_epoch epochs st idx b w in
  Forall (fun ev => ~ is_validation ev) (trace_of run)
  /\ (forall st', result_of run = Ok st' ->
                  valid_average_objf st' = valid_average_objf st).
Proof.
  intros Hidx. cbv zeta. unfold train_batch.
  rewrite (validation_not_due idx Hidx). split.
  - apply emits_at. unfold report_batch.
    repeat emits_step; simpl; auto; try discriminate.
    apply (emits_weaken (batch_event true)); [|apply get_objf_emits].
    apply training_event_not_validation.
  - intros st' H.
    apply bind_ok_inv in H as (r & _ & _ & _ & H).
    apply bind_ok_inv in H as (u & _ & _ & _ & H).
    apply bind_ok_inv in H as (v & Hv & _ & _ & H).
    injection Hv as <-. injection H as <-. reflexivity.
Qed.

Lemma train_loop_few (vdl : list (Batch E)) (gc : GraphCompiler E)
  (current_epoch epochs : nat) (bs : list (Batch E)) :
  forall (idx : nat) (st : TrainState) (w : World E),
    (idx + length bs <= 200)%nat ->
    let run :=
      for_enumerate (train_batch E vdl gc current_epoch epochs) idx bs st w in
    Forall (fun ev => ~ is_validation ev) (trace_of run)
    /\ (forall st', result_of run = Ok st' ->
                    valid_average_objf st' = valid_average_objf st).
Proof.
  induction bs as [|b bs IH]; intros idx st w Hlen; simpl in *.
  - split; [constructor|]. intros st' H. injection H as <-. reflexivity.
  - destruct (train_batch_few vdl gc current_epoch epochs st idx b w)
      as [Hev Hvalid]; [lia|].
    split.
    + apply Forall_bind; [exact Hev|]. intros st1 _. apply IH. lia.
    + intros st' H.
      apply bind_ok_inv in H as (st1 & Hbody & _ & _ & Hrest).
      apply IH in Hrest; [|lia]. rewrite Hrest. exact (Hvalid _ Hbody).
Qed.

Lemma train_one_epoch_few (dl vdl : list (Batch E)) (gc : GraphCompiler E)
  (current_epoch epochs : nat) (global_idx : Z) (w : World E) :
  (length dl <= 200)%nat ->
  let run := train_one_epoch E dl vdl gc current_epoch epochs global_idx w in
  Forall (fun ev => ~ is_validation ev) (trace_of run)
  /\ (forall objf valid global_idx',
         result_of run = Ok (objf, valid, global_idx') -> valid = infinity).
Proof.
  intros Hlen. cbv zeta. unfold train_one_epoch, train_loop. split.
  - apply Forall_bind.
    + apply Forall_bind.
      * apply emits_at. unfold set_model_train.
        repeat emits_step; simpl; auto.
      * intros u _. apply train_loop_few. exact Hlen.
    + intros st _. apply emits_at. repeat emits_step.
  - intros objf valid global_idx' H.
    apply bind_ok_inv in H as (st & Hloop & _ & _ & H).
    apply bind_ok_inv in Hloop as (u & _ & _ & _ & Hloop).
    apply train_loop_few in Hloop; [|exact Hlen]. simpl in Hloop.
    destruct (ts_totals st) as [[total_objf total_frames] total_all].
    apply bind_ok_inv in H as (average & _ & _ & _ & H).
    injection H as _ <- _. exact Hloop.
Qed.

Lemma get_objf_training_event (batch : Batch E) (gc : GraphCompiler E)
  (training : bool) :
  emits training_event (get_objf E batch gc training).
Proof.
  apply (emits_weaken (batch_event training)); [|apply get_objf_emits].
  intros ev. destruct ev; simpl; auto.
Qed.

Lemma train_one_epoch_emits (dl vdl : list (Batch E)) (gc : GraphCompiler E)
  (current_epoch epochs : nat) (global_idx : Z) :
  emits training_event
    (train_one_epoch E dl vdl gc current_epoch epochs global_idx).
Proof.
  unfold train_one_epoch, train_loop, train_batch, report_batch, validate,
    get_validation_objf, set_model_train.
  repeat emits_step; simpl; auto; apply get_objf_training_event.
Qed.

Lemma save_epoch_not_better (epoch : nat) (best : BestState)
  (objf valid : float) (global_idx : Z) (w : World E) :
  (valid <? best_valid_objf best)%float = false ->
  let run := save_epoch E epoch best (objf, valid, global_idx) w in
  Forall (fun ev => ~ is_validation ev /\ ~ saves_best ev) (trace_of run)
  /\ result_of run = Ok best.
Proof.
  intros Hlt. cbv zeta. unfold save_epoch. rewrite Hlt. split.
  - pose proof (epoch_model_path_not_best epoch).
    pose proof (epoch_info_filename_not_best epoch).
    repeat constructor; simpl; auto.
  - reflexivity.
Qed.

(** C8. In an epoch whose training loader yields 200 batches or fewer, no
    validation is run: [train_one_epoch] emits no event of a validation
    pass, what it returns for [valid_average_objf] is plus infinity, and
    the epoch writes neither the best model nor the best-epoch info file
    and leaves the best-epoch data as they were. *)
Theorem few_batches_no_validation (env : Env E) (st : BestState * Z)
  (epoch : nat) (w : World E) :
  (length (train_dl env epoch) <= 200)%nat ->
  let training :=
    train_one_epoch E (train_dl env epoch) (valid_dl env)
      (graph_compiler env) epoch num_epochs (snd st) w in
  let run := run_epoch E env st epoch w in
  Forall (fun ev => ~ is_validation ev) (trace_of training)
  /\ (forall objf valid global_idx,
         result_of training = Ok (objf, valid, global_idx) ->
         valid = infinity)
  /\ Forall (fun ev => ~ is_validation ev /\ ~ saves_best ev) (trace_of run)
  /\ (forall st', result_of run = Ok st' -> fst st' = fst st).
Proof.
  intros Hlen training run.
  destruct (train_one_epoch_few (train_dl env epoch) (valid_dl env)
              (graph_compiler env) epoch num_epochs (snd st) w Hlen)
    as [Hev Hinf].
  fold training in Hev, Hinf.
  split; [exact Hev|]. split; [exact Hinf|].
  assert (Hsave : forall r, result_of training = Ok r ->
            Forall (fun ev => ~ is_validation ev /\ ~ saves_best ev)
              (trace_of (save_epoch E epoch (fst st) r (world_of training)))
            /\ result_of (save_epoch E epoch (fst st) r (world_of training))
               = Ok (fst st)).
  { intros [[objf valid] global_idx] Hr. rewrite (Hinf _ _ _ Hr).
    apply save_epoch_not_better, ltb_infinity_l. }
  subst run. unfold run_epoch. split.
  - repeat (apply Forall_bind;
            [repeat constructor; simpl; auto; discriminate
            | intros ? _; rewrite world_of_emit]).
    apply Forall_bind.
    + pose proof (train_one_epoch_emits (train_dl env epoch) (valid_dl env)
                    (graph_compiler env) epoch num_epochs (snd st) w) as Htr.
      fold training in Htr.
      rewrite Forall_forall in *. intros ev Hin.
      specialize (Hev ev Hin). specialize (Htr ev Hin).
      split; [exact Hev|]. destruct ev; simpl in *; auto.
    + intros r Hr. apply Forall_bind; [apply (Hsave r Hr)|].
      intros best' _. constructor.
  - intros st' H.
    repeat (apply bind_ok_inv in H as (? & _ & _ & _ & H);
            rewrite world_of_emit in H).
    apply bind_ok_inv in H as (r & Hr & _ & _ & H).
    apply bind_ok_inv in H as (best' & Hbest & _ & _ & H).
    fold training in Hr, Hbest.
    rewrite (proj2 (Hsave r Hr)) in Hbest.
    injection Hbest as <-. injection H as <-. reflexivity.
Qed.

End FewBatches.

Lemma few_batches_no_validation_witness :
  let env := Toy.env (fun _ => [Toy.two_segments]) [Toy.two_segments] in
  let st := ({| best_objf := infinity; best_valid_objf := infinity;
                best_epoch := 0 |}, 0) in
  let run := run_epoch Toy.E env st 0 Toy.world in
  Forall (fun ev => ~ is_validation ev /\ ~ saves_best ev) (trace_of run)
  /\ exists st', result_of run = Ok st' /\ fst st' = fst st.
Proof.
  intros env st run.
  destruct (few_batches_no_validation (E := Toy.E) env st 0 Toy.world)
    as (_ & _ & Hev & Hbest).
  - simpl. lia.
  - split; [exact Hev|]. eexists. split.
    + vm_compute. reflexivity.
    + apply Hbest. vm_compute. reflexivity.
Defined.

(** ** What an epoch saves *)

Section Checkpoints.

Context {E : Externals}.

Lemma save_epoch_better (epoch : nat) (best : BestState)
  (objf valid : float) (global_idx : Z) (w : World E) :
  (valid <? best_valid_objf best)%float = true ->
  save_epoch E epoch best (objf, valid, global_idx) w
  = ([EvSaveCheckpoint best_model_path false epoch curr_learning_rate objf
        valid global_idx;
      EvSaveTrainingInfo best_epoch_info_filename best_model_path epoch
        curr_learning_rate objf objf valid valid epoch;
      EvSaveCheckpoint (epoch_model_path epoch) true epoch curr_learning_rate
        objf valid global_idx;
      EvSaveTrainingInfo (epoch_info_filename epoch) (epoch_model_path epoch)
        epoch curr_learning_rate objf objf valid valid epoch],
     w,
     Ok {| best_objf := objf; best_valid_objf := valid;
           best_epoch := epoch |}).
Proof. intros Hlt. unfold save_epoch. rewrite Hlt. reflexivity. Qed.

Lemma save_epoch_same (epoch : nat) (best : BestState)
  (objf valid : float) (global_idx : Z) (w : World E) :
  (valid <? best_valid_objf best)%float = false ->
  save_epoch E epoch best (objf, valid, global_idx) w
  = ([EvSaveCheckpoint (epoch_model_path epoch) true epoch curr_learning_rate
        objf valid global_idx;
      EvSaveTrainingInfo (epoch_info_filename epoch) (epoch_model_path epoch)
        epoch curr_learning_rate objf (best_objf best) valid
        (best_valid_objf best) (best_epoch best)],
     w, Ok best).
Proof. intros Hlt. unfold save_epoch. rewrite Hlt. reflexivity. Qed.

Lemma saves_epoch_app_l (epoch : nat) (t1 t2 : list (event E)) :
  saves_epoch epoch t1 -> saves_epoch epoch (t1 ++ t2).
Proof. intros [H1 H2]. split; apply Exists_app; auto. Qed.

Lemma saves_epoch_app_r (epoch : nat) (t1 t2 : list (event E)) :
  saves_epoch epoch t2 -> saves_epoch epoch (t1 ++ t2).
Proof. intros [H1 H2]. split; apply Exists_app; auto. Qed.

Lemma save_epoch_saves (epoch : nat) (best : BestState)
  (r : float * float * Z) (w : World E) :
  saves_epoch epoch (trace_of (save_epoch E epoch best r w))
  /\ exists best', result_of (save_epoch E epoch best r w) = Ok best'.
Proof.
  destruct r as [[objf valid] global_idx].
  destruct (valid <? best_valid_objf best)%float eqn:Hlt.
  - rewrite (save_epoch_better _ _ _ _ _ _ Hlt). simpl. split; [split|eauto].
    + do 2 apply Exists_cons_tl. apply Exists_cons_hd. simpl. auto.
    + do 3 apply Exists_cons_tl. apply Exists_cons_hd. simpl. auto.
  - rewrite (save_epoch_same _ _ _ _ _ _ Hlt). simpl. split; [split|eauto].
    + apply Exists_cons_hd. simpl. auto.
    + apply Exists_cons_tl. apply Exists_cons_hd. simpl. auto.
Qed.

(** One epoch, run. *)
Lemma run_epoch_run (env : Env E) (st : BestState * Z) (epoch : nat)
  (w : World E) :
  let training :=
    train_one_epoch E (train_dl env epoch) (valid_dl env)
      (graph_compiler env) epoch num_epochs (snd st) w in
  let head :=
    [EvSetEpoch epoch;
     EvAddScalar "learning_rate" curr_learning_rate (Z.of_nat epoch);
     EvLog INFO (MsgEpoch epoch curr_learning_rate)] in
  match result_of training with
  | Ok r =>
      let saved := save_epoch E epoch (fst st) r (world_of training) in
      exists best',
        result_of saved = Ok best'
        /\ run_epoch E env st epoch w
           = (head ++ trace_of training ++ trace_of saved, world_of saved,
              Ok (best', snd r))
  | Raise err =>
      run_epoch E env st epoch w
      = (head ++ trace_of training, world_of training, Raise err)
  end.
Proof.
  cbv zeta. unfold run_epoch, bind, emit, trace_of, world_of, result_of.
  simpl.
  destruct (train_one_epoch E _ _ _ _ _ _ w) as [[t1 w1] [r|err]]; simpl;
    [|reflexivity].
  destruct (save_epoch_saves epoch (fst st) r w1) as [_ [best' Hbest]].
  unfold result_of in Hbest.
  exists best'. split; [exact Hbest|].
  destruct (save_epoch E epoch (fst st) r w1) as [[t2 w2] r2].
  simpl in Hbest. subst r2. simpl. now rewrite app_nil_r.
Qed.

Lemma run_epoch_saves (env : Env E) (st : BestState * Z) (epoch : nat)
  (w : World E) (r : float * float * Z) :
  result_of
    (train_one_epoch E (train_dl env epoch) (valid_dl env)
       (graph_compiler env) epoch num_epochs (snd st) w) = Ok r ->
  saves_epoch epoch (trace_of (run_epoch E env st epoch w))
  /\ exists best', result_of (run_epoch E env st epoch w) = Ok (best', snd r).
Proof.
  intros Hr. unfold run_epoch, bind, emit. simpl.
  destruct (train_one_epoch E _ _ _ _ _ _ w) as [[t1 w1] r1] eqn:Htrain.
  simpl in Hr. subst r1.
  destruct (save_epoch_saves epoch (fst st) r w1) as [Hsaves [best' Hbest]].
  destruct (save_epoch E epoch (fst st) r w1) as [[t2 w2] r2]. simpl in *.
  subst r2. simpl. split; [|eauto].
  unfold trace_of. simpl. rewrite app_nil_r.
  apply (saves_epoch_app_r epoch (_ :: _ :: _ :: t1) t2). exact Hsaves.
Qed.

Lemma run_epoch_ok_inv (env : Env E) (st st' : BestState * Z) (epoch : nat)
  (w : World E) :
  result_of (run_epoch E env st epoch w) = Ok st' ->
  exists r,
    result_of
      (train_one_epoch E (train_dl env epoch) (valid_dl env)
         (graph_compiler env) epoch num_epochs (snd st) w) = Ok r.
Proof.
  unfold run_epoch. intros H.
  repeat (apply bind_ok_inv in H as (? & _ & _ & _ & H);
          rewrite world_of_emit in H).
  apply bind_ok_inv in H as (r & Hr & _). eauto.
Qed.

Lemma epoch_loop_saves (env : Env E) (epochs : list nat) :
  forall (st st' : BestState * Z) (w : World E),
    result_of (epoch_loop E env epochs st w) = Ok st' ->
    forall epoch, In epoch epochs ->
                  saves_epoch epoch (trace_of (epoch_loop E env epochs st w)).
Proof.
  induction epochs as [|e epochs IH]; intros st st' w H epoch Hin;
    [contradiction|].
  simpl in *.
  apply bind_ok_inv in H as (st1 & Hrun & -> & _ & Hrest).
  destruct Hin as [<- | Hin].
  - apply saves_epoch_app_l.
    destruct (run_epoch_ok_inv _ _ _ _ _ Hrun) as [r Hr].
    apply (run_epoch_saves env st e w r Hr).
  - apply saves_epoch_app_r. exact (IH _ _ _ Hrest epoch Hin).
Qed.

(** C3. Once the training of an epoch has returned, the checkpoint of the
    epoch and its info file are saved whatever the validation objective
    and the best one so far are; a run of [main] that ends without an
    exception has saved both for each of its epochs. *)
Theorem every_epoch_is_saved :
  (forall (epoch : nat) (best : BestState) (objf valid_objf : float)
          (global_idx : Z) (w : World E),
      let run := save_epoch E epoch best (objf, valid_objf, global_idx) w in
      In (EvSaveCheckpoint (epoch_model_path epoch) true epoch
            curr_learning_rate objf valid_objf global_idx) (trace_of run)
      /\ Exists (saves_epoch_info epoch) (trace_of run)
      /\ exists best', result_of run = Ok best')
  /\ (forall (env : Env E) (st : BestState * Z) (epoch : nat) (w : World E)
             (r : float * float * Z),
         result_of
           (train_one_epoch E (train_dl env epoch) (valid_dl env)
              (graph_compiler env) epoch num_epochs (snd st) w) = Ok r ->
         saves_epoch epoch (trace_of (run_epoch E env st epoch w)))
  /\ (forall (env : Env E),
         result_of (run_main E env) = Ok tt ->
         forall epoch, (epoch < num_epochs)%nat ->
                       saves_epoch epoch (trace_of (run_main E env))).
Proof.
  split; [|split].
  - intros epoch best objf valid_objf global_idx w run.
    destruct (save_epoch_saves epoch best (objf, valid_objf, global_idx) w)
      as [[_ Hinfo] Hok].
    fold run in Hinfo, Hok. split; [|split; assumption].
    subst run. destruct (valid_objf <? best_valid_objf best)%float eqn:Hlt.
    + rewrite (save_epoch_better _ _ _ _ _ _ Hlt). simpl. auto.
    + rewrite (save_epoch_same _ _ _ _ _ _ Hlt). simpl. auto.
  - intros env st epoch w r Hr. apply (run_epoch_saves env st epoch w r Hr).
  - intros env H epoch Hlt. unfold run_main, main in *.
    do 8 (apply bind_ok_inv in H as (? & _ & -> & _ & H);
          apply saves_epoch_app_r).
    apply bind_ok_inv in H as (st' & Hloop & -> & _ & _).
    apply saves_epoch_app_l.
    apply (epoch_loop_saves env _ _ _ _ Hloop).
    apply in_seq. unfold start_epoch, num_epochs in *. lia.
Qed.

End Checkpoints.

Lemma every_epoch_is_saved_witness :
  saves_epoch 7
    (trace_of
       (run_main Toy.E
          (Toy.env (fun _ => [Toy.two_segments]) [Toy.two_segments]))).
Proof.
  apply (proj2 (proj2 (every_epoch_is_saved (E := Toy.E)))).
  - vm_compute. reflexivity.
  - unfold num_epochs. lia.
Defined.

(** ** The best validation objective *)

Section FloatOrderTrans.

Lemma SFleb_trans (x y z : spec_float) :
  SFleb x y = true -> SFleb y z = true -> SFleb x z = true.
Proof.
  unfold SFleb.
  destruct x as [sx|sx| |sx mx ex], y as [sy|sy| |sy my ey],
    z as [sz|sz| |sz mz ez]; simpl;
    repeat match goal with s : bool |- _ => destruct s end; simpl;
    try congruence;
    change (Pos.compare_cont Eq) with Pos.compare;
    repeat match goal with
      | |- context [Z.compare ?a ?b] =>
          destruct (Z.compare_spec a b); subst; simpl; try congruence; try lia
      end;
    repeat match goal with
      | |- context [Pos.compare ?a ?b] =>
          destruct (Pos.compare_spec a b); subst; simpl; try congruence; try lia
      end.
Qed.

Lemma leb_trans (x y z : float) :
  (x <=? y)%float = true -> (y <=? z)%float = true -> (x <=? z)%float = true.
Proof. rewrite !FloatAxioms.leb_spec. apply SFleb_trans. Qed.

End FloatOrderTrans.

Lemma ge_float_trans : Relations_1.Transitive ge_float.
Proof. intros x y z Hxy Hyz. exact (leb_trans z y x Hyz Hxy). Qed.

Lemma last_cons_default {A : Type} (x : A) (l : list A) (a b : A) :
  last (x :: l) a = last (x :: l) b.
Proof.
  revert x. induction l as [|y l IH]; intros x; [reflexivity|].
  change (last (y :: l) a = last (y :: l) b). apply IH.
Qed.

Lemma descending_from_app (b : float) (l1 l2 : list float) :
  descending_from b l1 -> descending_from (last l1 b) l2 ->
  descending_from b (l1 ++ l2).
Proof.
  revert b. induction l1 as [|x l1 IH]; intros b H1 H2; simpl in *;
    [exact H2|].
  destruct H1 as [Hx H1]. split; [exact Hx|]. apply IH; [exact H1|].
  destruct l1 as [|y l1]; [exact H2|].
  rewrite (last_cons_default y l1 x b). exact H2.
Qed.

Lemma descending_from_sorted (b : float) (l : list float) :
  descending_from b l -> StronglySorted ge_float (b :: l).
Proof.
  intros H. apply Sorted_StronglySorted; [exact ge_float_trans|].
  revert b H. induction l as [|x l IH]; intros b H.
  - repeat constructor.
  - destruct H as [Hx H]. constructor; [apply IH, H|]. constructor. exact Hx.
Qed.

Section BestValidation.

Context {E : Externals}.

Lemma best_history_app (t1 t2 : list (event E)) :
  best_history (t1 ++ t2) = best_history t1 ++ best_history t2.
Proof. apply flat_map_app. Qed.

Lemma best_history_none (t : list (event E)) :
  Forall no_info t -> best_history t = [].
Proof.
  induction 1 as [|ev t Hev _ IH]; simpl; [reflexivity|].
  rewrite IH. destruct ev; simpl in *; try reflexivity. contradiction.
Qed.

Lemma save_epoch_best (epoch : nat) (best : BestState)
  (r : float * float * Z) (w : World E) :
  PrimFloat.is_nan (best_valid_objf best) = false ->
  let run := save_epoch E epoch best r w in
  let history := best_history (trace_of run) in
  descending_from (best_valid_objf best) history
  /\ exists best',
       result_of run = Ok best'
       /\ best_valid_objf best' = last history (best_valid_objf best)
       /\ PrimFloat.is_nan (best_valid_objf best') = false.
Proof.
  intros Hnan. destruct r as [[objf valid] global_idx]. cbv zeta.
  destruct (valid <? best_valid_objf best)%float eqn:Hlt.
  - rewrite (save_epoch_better _ _ _ _ _ _ Hlt). simpl.
    pose proof (ltb_not_nan_l _ _ Hlt) as Hvalid.
    repeat split.
    + exact (ltb_leb _ _ Hlt).
    + exact (leb_refl _ Hvalid).
    + eexists. repeat split. exact Hvalid.
  - rewrite (save_epoch_same _ _ _ _ _ _ Hlt). simpl.
    repeat split.
    + exact (leb_refl _ Hnan).
    + eexists. repeat split. exact Hnan.
Qed.

Lemma run_epoch_best (env : Env E) (st : BestState * Z) (epoch : nat)
  (w : World E) :
  PrimFloat.is_nan (best_valid_objf (fst st)) = false ->
  let run := run_epoch E env st epoch w in
  let history := best_history (trace_of run) in
  descending_from (best_valid_objf (fst st)) history
  /\ (forall st', result_of run = Ok st' ->
        best_valid_objf (fst st') = last history (best_valid_objf (fst st))
        /\ PrimFloat.is_nan (best_valid_objf (fst st')) = false).
Proof.
  intros Hnan. cbv zeta. unfold run_epoch, bind, emit. simpl.
  pose proof (train_one_epoch_emits (train_dl env epoch) (valid_dl env)
                (graph_compiler env) epoch num_epochs (snd st) w) as Htr.
  destruct (train_one_epoch E _ _ _ _ _ _ w) as [[t1 w1] [r|e]].
  - destruct (save_epoch_best epoch (fst st) r w1 Hnan)
      as (Hdesc & best' & Hok & Hlast & Hnan').
    destruct (save_epoch E epoch (fst st) r w1) as [[t2 w2] r2].
    unfold trace_of, result_of in *. simpl in *. subst r2.
    cbn [fst snd]. rewrite app_nil_r.
    change (best_history (?a :: ?b :: ?c :: t1 ++ t2))
      with (best_history (t1 ++ t2)).
    rewrite best_history_app, (best_history_none t1)
      by (refine (Forall_impl _ _ Htr); intros ev; destruct ev; simpl; auto).
    simpl. split; [exact Hdesc|].
    intros st' H. injection H as <-. simpl. auto.
  - unfold trace_of, result_of in *. simpl in *.
    change (best_history (?a :: ?b :: ?c :: t1)) with (best_history t1).
    rewrite (best_history_none t1)
      by (refine (Forall_impl _ _ Htr); intros ev; destruct ev; simpl; auto).
    simpl. split; [exact I | discriminate].
Qed.

Lemma epoch_loop_best (env : Env E) (epochs : list nat) :
  forall (st : BestState * Z) (w : World E),
    PrimFloat.is_nan (best_valid_objf (fst st)) = false ->
    descending_from (best_valid_objf (fst st))
      (best_history (trace_of (epoch_loop E env epochs st w))).
Proof.
  induction epochs as [|e epochs IH]; intros st w Hnan; simpl; [exact I|].
  destruct (run_epoch_best env st e w Hnan) as [Hdesc Hok].
  destruct (bind_cases (run_epoch E env st e)
              (fun st' => epoch_loop E env epochs st') w)
    as [(st1 & Hrun & -> & _) | (err & _ & -> & _)]; [|exact Hdesc].
  destruct (Hok st1 Hrun) as [Hlast Hnan1].
  rewrite best_history_app. apply descending_from_app; [exact Hdesc|].
  rewrite <- Hlast. apply IH. exact Hnan1.
Qed.

End BestValidation.

Section BestValidationMain.

Context {E : Externals}.

Lemma bind_ret_l {A B : Type} (a : A) (f : A -> M E B) (w : World E) :
  bind (ret a) f w = f a w.
Proof. unfold bind, ret. destruct (f a w) as [[t w'] r]. reflexivity. Qed.

Lemma descending_skip {A B : Type} (c : M E A) (f : A -> M E B)
  (w : World E) (b : float) :
  emits no_info c ->
  (forall a w', descending_from b (best_history (trace_of (f a w')))) ->
  descending_from b (best_history (trace_of (bind c f w))).
Proof.
  intros Hc Hf.
  destruct (bind_cases c f w) as [(a & _ & -> & _) | (e & _ & -> & _)].
  - rewrite best_history_app, (best_history_none _ (Hc w)). apply Hf.
  - rewrite (best_history_none _ (Hc w)). exact I.
Qed.

Lemma descending_then_silent {A B : Type} (c : M E A) (f : A -> M E B)
  (w : World E) (b : float) :
  descending_from b (best_history (trace_of (c w))) ->
  (forall a, emits no_info (f a)) ->
  descending_from b (best_history (trace_of (bind c f w))).
Proof.
  intros Hc Hf.
  destruct (bind_cases c f w) as [(a & _ & -> & _) | (e & _ & -> & _)];
    [|exact Hc].
  rewrite best_history_app, (best_history_none _ (Hf a _)), app_nil_r.
  exact Hc.
Qed.

Lemma main_best_history (env : Env E) :
  descending_from infinity (best_history (trace_of (run_main E env))).
Proof.
  unfold run_main, main, load_symbols, build_graph_compiler, build_data,
    build_model_and_optimizer.
  do 7 (apply descending_skip;
        [repeat emits_step; simpl; auto | intros ? ?]).
  unfold initial_best. change (0 <? start_epoch)%nat with false. cbv iota.
  rewrite bind_ret_l.
  apply descending_then_silent.
  - apply (epoch_loop_best env _
             ({| best_objf := infinity; best_valid_objf := infinity;
                 best_epoch := start_epoch |}, 0)).
    reflexivity.
  - intros st. repeat emits_step. simpl. auto.
Qed.

Lemma save_epoch_best_iff (epoch : nat) (best : BestState)
  (objf valid_objf : float) (global_idx : Z) (w : World E) :
  let run := save_epoch E epoch best (objf, valid_objf, global_idx) w in
  let better := (valid_objf <? best_valid_objf best)%float in
  (Exists saves_best_model (trace_of run) <-> better = true)
  /\ (Exists saves_best_info (trace_of run) <-> better = true)
  /\ result_of run
     = Ok (if better
           then {| best_objf := objf; best_valid_objf := valid_objf;
                   best_epoch := epoch |}
           else best).
Proof.
  cbv zeta.
  pose proof (epoch_model_path_not_best epoch) as Hmodel.
  pose proof (epoch_info_filename_not_best epoch) as Hinfo.
  destruct (valid_objf <? best_valid_objf best)%float eqn:Hlt.
  - rewrite (save_epoch_better _ _ _ _ _ _ Hlt). simpl.
    repeat split; auto.
    + intros _. apply Exists_cons_hd. reflexivity.
    + intros _. apply Exists_cons_tl, Exists_cons_hd. reflexivity.
  - rewrite (save_epoch_same _ _ _ _ _ _ Hlt). simpl.
    repeat split; try discriminate; intros H; exfalso;
      unfold trace_of in H; cbn [fst] in H;
      repeat match goal with
        | H : Exists _ (_ :: _) |- _ => inversion H; clear H; subst
        | H : Exists _ [] |- _ => inversion H
        | H : saves_best_model _ |- _ => first [exact (Hmodel H) | exact H]
        | H : saves_best_info _ |- _ => first [exact (Hinfo H) | exact H]
        end.
Qed.

Lemma Exists_after_not_saving (P : event E -> Prop)
  (t1 t2 : list (event E)) :
  (forall ev, P ev -> ~ not_saving ev) ->
  Forall not_saving t1 ->
  (Exists P (t1 ++ t2) <-> Exists P t2).
Proof.
  intros HP Hall. rewrite Exists_app. split; [|auto].
  intros [H | H]; [|exact H]. exfalso.
  apply Exists_exists in H as (ev & Hin & Hev).
  rewrite Forall_forall in Hall. exact (HP ev Hev (Hall ev Hin)).
Qed.

Lemma run_epoch_best_iff (env : Env E) (st : BestState * Z) (epoch : nat)
  (w : World E) (objf valid_objf : float) (global_idx : Z) :
  result_of
    (train_one_epoch E (train_dl env epoch) (valid_dl env)
       (graph_compiler env) epoch num_epochs (snd st) w)
  = Ok (objf, valid_objf, global_idx) ->
  let run := run_epoch E env st epoch w in
  let better := (valid_objf <? best_valid_objf (fst st))%float in
  (Exists saves_best_model (trace_of run) <-> better = true)
  /\ (Exists saves_best_info (trace_of run) <-> better = true).
Proof.
  intros Hr. cbv zeta.
  pose proof (run_epoch_run env st epoch w) as Hrun. cbv zeta in Hrun.
  pose proof (train_one_epoch_emits (train_dl env epoch) (valid_dl env)
                (graph_compiler env) epoch num_epochs (snd st) w) as Hev.
  rewrite Hr in Hrun. destruct Hrun as (best' & _ & ->).
  pose proof (save_epoch_best_iff epoch (fst st) objf valid_objf global_idx
                (world_of
                   (train_one_epoch E (train_dl env epoch) (valid_dl env)
                      (graph_compiler env) epoch num_epochs (snd st) w)))
    as Hsave.
  cbv zeta in Hsave. destruct Hsave as (Hmodel & Hinfo & _).
  cbn [trace_of fst]. rewrite app_assoc.
  assert (Hquiet : Forall not_saving
            ([EvSetEpoch epoch;
              EvAddScalar "learning_rate" curr_learning_rate (Z.of_nat epoch);
              EvLog INFO (MsgEpoch epoch curr_learning_rate)]
             ++ trace_of
                  (train_one_epoch E (train_dl env epoch) (valid_dl env)
                     (graph_compiler env) epoch num_epochs (snd st) w))).
  { apply Forall_app. split; [repeat constructor|].
    refine (Forall_impl _ _ Hev). intros ev. destruct ev; simpl; auto. }
  split.
  - etransitivity; [|exact Hmodel].
    apply Exists_after_not_saving; [|exact Hquiet].
    intros ev. destruct ev; simpl; auto.
  - etransitivity; [|exact Hinfo].
    apply Exists_after_not_saving; [|exact Hquiet].
    intros ev. destruct ev; simpl; auto.
Qed.

(** C7. Over the epochs of [main] the values of [best_valid_objf] never
    go up (each is at most every earlier one, and the first at most the
    initial plus infinity); and in an epoch whose training has returned,
    [best_model.pt] and the best-epoch info file are written exactly
    when the validation objective of the epoch is strictly below the
    best one so far, which it then replaces. *)
Theorem best_valid_objf_never_increases :
  (forall env : Env E,
      StronglySorted ge_float
        (infinity :: best_history (trace_of (run_main E env))))
  /\ (forall (env : Env E) (st : BestState * Z) (epoch : nat) (w : World E)
             (objf valid_objf : float) (global_idx : Z),
         result_of
           (train_one_epoch E (train_dl env epoch) (valid_dl env)
              (graph_compiler env) epoch num_epochs (snd st) w)
         = Ok (objf, valid_objf, global_idx) ->
         let run := run_epoch E env st epoch w in
         let better := (valid_objf <? best_valid_objf (fst st))%float in
         (Exists saves_best_model (trace_of run) <-> better = true)
         /\ (Exists saves_best_info (trace_of run) <-> better = true))
  /\ (forall (epoch : nat) (best : BestState) (objf valid_objf : float)
             (global_idx : Z) (w : World E),
         let run := save_epoch E epoch best (objf, valid_objf, global_idx) w in
         let better := (valid_objf <? best_valid_objf best)%float in
         (Exists saves_best_model (trace_of run) <-> better = true)
         /\ (Exists saves_best_info (trace_of run) <-> better = true)
         /\ result_of run
            = Ok (if better
                  then {| best_objf := objf; best_valid_objf := valid_objf;
                          best_epoch := epoch |}
                  else best)).
Proof.
  split; [|split].
  - intros env. apply descending_from_sorted, main_best_history.
  - exact run_epoch_best_iff.
  - exact save_epoch_best_iff.
Qed.

End BestValidationMain.

Lemma best_valid_objf_never_increases_witness :
  let env :=
    Toy.env (fun _ => repeat Toy.two_segments 201) [Toy.two_segments] in
  let st := ({| best_objf := infinity; best_valid_objf := infinity;
                best_epoch := 0 |}, 0) in
  Exists saves_best_model (trace_of (run_epoch Toy.E env st 0 Toy.world))
  /\ Exists saves_best_info (trace_of (run_epoch Toy.E env st 0 Toy.world)).
Proof.
  intros env st.
  edestruct (proj1 (proj2 (best_valid_objf_never_increases (E := Toy.E)))
               env st 0%nat Toy.world) as [Hmodel Hinfo].
  - vm_compute. reflexivity.
  - split; [apply Hmodel | apply Hinfo]; vm_compute; reflexivity.
Defined.

Example best_model_saved_when_better :
  trace_of
    (save_epoch Toy.E 3
       {| best_objf := 5; best_valid_objf := 2; best_epoch := 1 |}
       (4%float, 1.5%float, 7) Toy.world)
  = [EvSaveCheckpoint "exp-lstm-adam-ctc/best_model.pt" false 3 0.001 4 1.5 7;
     EvSaveTrainingInfo "exp-lstm-adam-ctc/best-epoch-info"
       "exp-lstm-adam-ctc/best_model.pt" 3 0.001 4 4 1.5 1.5 3;
     EvSaveCheckpoint "exp-lstm-adam-ctc/epoch-3.pt" true 3 0.001 4 1.5 7;
     EvSaveTrainingInfo "exp-lstm-adam-ctc/epoch-3-info"
       "exp-lstm-adam-ctc/epoch-3.pt" 3 0.001 4 4 1.5 1.5 3].
Proof. vm_compute. reflexivity. Qed.

Example best_model_kept_when_equal :
  trace_of
    (save_epoch Toy.E 3
       {| best_objf := 5; best_valid_objf := 2; best_epoch := 1 |}
       (4%float, 2%float, 7) Toy.world)
  = [EvSaveCheckpoint "exp-lstm-adam-ctc/epoch-3.pt" true 3 0.001 4 2 7;
     EvSaveTrainingInfo "exp-lstm-adam-ctc/epoch-3-info"
       "exp-lstm-adam-ctc/epoch-3.pt" 3 0.001 4 5 2 2 1].
Proof. vm_compute. reflexivity. Qed.

(** ** The order of a run of main *)

Section LinearFlow.

Context {E : Externals}.

Lemma trace_of_bind {A B : Type} (c : M E A) (f : A -> M E B) (w : World E) :
  trace_of (bind c f w)
  = trace_of (c w)
    ++ match result_of (c w) with
       | Ok a => trace_of (f a (world_of (c w)))
       | Raise _ => []
       end.
Proof.
  destruct (bind_cases c f w) as [(a & -> & -> & _) | (e & -> & -> & _)].
  - reflexivity.
  - now rewrite app_nil_r.
Qed.









End LinearFlow.

(** ** Runs on the small instance *)

Example toy_get_objf :
  get_objf Toy.E Toy.two_segments tt true Toy.world
  = ([EvModelCall true; EvCompile ["dos"%string; "uno"%string];
      EvDenseFsaVec [(1, 0, 20); (0, 0, 10)];
      EvIntersectDense ([] : Fsa Toy.E) [(-5)%float; (-3)%float] 10;
      EvGetTotScores true true; EvOptimizerStep 5;
      EvObjf true 8 30 30],
     Build_World Toy.E 1 tt,
     Ok (8%float, 30, 30)).
Proof. vm_compute. reflexivity. Qed.

(** With 201 batches the validation runs once, at [batch_idx = 200], and
    its average is what [train_one_epoch] returns. *)
Example validation_runs_at_batch_200 :
  let run :=
    train_one_epoch Toy.E (repeat Toy.two_segments 201) [Toy.two_segments]
      tt 0 8 0 Toy.world in
  length (objf_returns false (trace_of run)) = 1%nat
  /\ length (objf_returns true (trace_of run)) = 201%nat
  /\ match result_of run with
     | Ok (_, valid, global_idx) =>
         valid = (8 / 30)%float /\ global_idx = 201
     | Raise _ => False
     end.
Proof. vm_compute. repeat split; reflexivity. Qed.

(** A loader that yields nothing: the average over no frames is a
    division by zero. *)
Example empty_loader_raises :
  train_one_epoch Toy.E [] [Toy.two_segments] tt 0 8 0 Toy.world
  = ([EvModelTrain], Toy.world, Raise ZeroDivisionError).
Proof. vm_compute. reflexivity. Qed.

(** A whole run: eight epochs of one batch, nothing validated, so the
    best model is never written and the eight epochs are all saved. *)
Example toy_main_saves :
  let run :=
    run_main Toy.E (Toy.env (fun _ => [Toy.two_segments]) [Toy.two_segments])
  in
  result_of run = Ok tt
  /\ best_history (trace_of run) = repeat infinity 8
  /\ length (objf_returns true (trace_of run)) = 8%nat.
Proof. vm_compute. repeat split; reflexivity. Qed.

(** Without a GPU. *)
Example toy_main_no_gpu :
  result_of
    (run_main Toy.E
       (Build_Env Toy.E false true [1; 2; 3] tt (fun _ => []) [] 0 tt
          (load_checkpoint (Toy.env (fun _ => []) []))))
  = Raise (SystemExit (-1)).
Proof. vm_compute. reflexivity. Qed.

(** * Further properties

    ** get_tot_objf_and_num_frames on tensors of any length *)

Section TensorBounds.

Lemma nonzero_from_filter {A : Type} (keep : A -> bool) (d : A)
  (ts : list A) :
  forall pre : list A,
    Torch.nonzero_from (length pre) (map keep ts)
    = filter (fun i => keep (nth i (pre ++ ts) d))
        (seq (length pre) (length ts)).
Proof.
  induction ts as [|a ts IH]; intros pre; [reflexivity|].
  simpl. rewrite app_nth2, Nat.sub_diag by lia. simpl.
  specialize (IH (pre ++ [a])).
  rewrite length_app, <- app_assoc, Nat.add_1_r in IH. simpl in IH.
  rewrite IH. reflexivity.
Qed.

Lemma nonzero_successful (ts : list float) :
  Torch.nonzero (Torch.ne ts neg_infinity) = successful_indexes ts.
Proof. exact (nonzero_from_filter successful neg_infinity ts []). Qed.

Lemma index_select_some {A : Type} (d : A) (t : list A)
  (indexes : list nat) :
  Forall (fun i => (i < length t)%nat) indexes ->
  Torch.index_select t indexes = Some (gather d t indexes).
Proof.
  induction 1 as [|i indexes Hi _ IH]; [reflexivity|].
  simpl. rewrite IH, (nth_error_nth' t d Hi). reflexivity.
Qed.

Lemma index_select_none {A : Type} (t : list A) (indexes : list nat) :
  Exists (fun i => (length t <= i)%nat) indexes ->
  Torch.index_select t indexes = None.
Proof.
  induction 1 as [i indexes Hi | i indexes _ IH]; simpl.
  - apply nth_error_None in Hi. rewrite Hi. reflexivity.
  - rewrite IH. destruct (nth_error t i); reflexivity.
Qed.

Lemma successful_indexes_in_range (ts : list float) :
  Forall (fun i => (i < length ts)%nat) (successful_indexes ts).
Proof.
  apply Forall_forall. intros i Hi.
  apply successful_indexes_spec in Hi. tauto.
Qed.

Lemma tot_objf_some (ts : list float) (fs : list Z) :
  Forall (fun i => (i < length fs)%nat) (successful_indexes ts) ->
  get_tot_objf_and_num_frames ts fs
  = Some (Torch.fsum (gather neg_infinity ts (successful_indexes ts)),
          Torch.isum (gather 0 fs (successful_indexes ts)),
          Torch.isum fs).
Proof.
  intros H. unfold get_tot_objf_and_num_frames.
  rewrite nonzero_successful.
  rewrite (index_select_some neg_infinity ts _
             (successful_indexes_in_range ts)).
  rewrite (index_select_some 0 fs _ H). reflexivity.
Qed.



Lemma successful_indexes_none (ts : list float) :
  forallb is_neg_inf ts = true -> successful_indexes ts = [].
Proof.
  intros Hall. unfold successful_indexes.
  rewrite forallb_forall in Hall.
  induction (seq 0 (length ts)) as [|i l IH]; [reflexivity|].
  simpl. rewrite IH.
  destruct (Nat.lt_ge_cases i (length ts)) as [Hi | Hi].
  - unfold successful. rewrite (Hall _ (nth_In ts neg_infinity Hi)).
    reflexivity.
  - rewrite (nth_overflow ts neg_infinity Hi). reflexivity.
Qed.

(** X2. When no segment succeeded, and so also on empty tensors, nothing is
    selected: the total score is [0.], no frame is kept, and there is no
    IndexError whatever the length of [frames_per_seq]. *)
Theorem get_tot_objf_and_num_frames_all_failed
  (tot_scores : list float) (frames_per_seq : list Z) :
  forallb is_neg_inf tot_scores = true ->
  get_tot_objf_and_num_frames tot_scores frames_per_seq
  = Some (0%float, 0, Torch.isum frames_per_seq).
Proof.
  intros Hall. rewrite tot_objf_some.
  - rewrite (successful_indexes_none _ Hall). reflexivity.
  - rewrite (successful_indexes_none _ Hall). constructor.
Qed.

Lemma zsum_frames_of_successful (ts : list float) :
  forall fs : list Z,
    Forall (fun x => 0 <= x) fs ->
    0 <= zsum (frames_of_successful ts fs) <= zsum fs.
Proof.
  unfold frames_of_successful.
  induction ts as [|a ts IH]; intros [|b fs] Hall; simpl;
    try (pose proof (proj1 (zsum_bounds _ 0 0 ltac:(constructor))); lia).
  - inversion Hall as [|? ? Hb Hfs]; subst.
    assert (0 <= zsum fs).
    { clear -Hfs. induction Hfs; simpl; lia. }
    lia.
  - inversion Hall as [|? ? Hb Hfs]; subst. specialize (IH fs Hfs).
    destruct (successful a); simpl; lia.
Qed.

(** X3. The frames kept are between none and all: for frame counts that are
    not negative (int32, fewer than 2^32 segments) [ok_frames] is at
    least 0 and at most [all_frames], which is the exact sum. *)
Theorem get_tot_objf_and_num_frames_kept_le_all
  (tot_scores : list float) (frames_per_seq : list Z) :
  length tot_scores = length frames_per_seq ->
  Forall (fun x => 0 <= x <= 2 ^ 31 - 1) frames_per_seq ->
  Z.of_nat (length frames_per_seq) < 2 ^ 32 ->
  exists tot_score ok_frames all_frames,
    get_tot_objf_and_num_frames tot_scores frames_per_seq
    = Some (tot_score, ok_frames, all_frames)
    /\ 0 <= ok_frames <= all_frames
    /\ all_frames = zsum frames_per_seq.
Proof.
  intros Hlen Hall Hsmall.
  rewrite (get_tot_objf_and_num_frames_eq _ _ Hlen), !isum_zsum.
  assert (Hall32 : Forall (fun x => - 2 ^ 31 <= x <= 2 ^ 31 - 1)
                     frames_per_seq).
  { refine (Forall_impl _ _ Hall). intros x Hx. split; [|apply Hx].
    change (2 ^ 31) with 2147483648. lia. }
  destruct (gather_successful_bounds tot_scores frames_per_seq _ _ Hlen Hall32)
    as [Hok Hoklen].
  rewrite <- (frames_of_successful_gather _ _ Hlen) in Hok, Hoklen.
  rewrite (wrap64_zsum_exact _ Hall32 Hsmall), (wrap64_zsum_exact _ Hok)
    by lia.
  do 3 eexists. split; [reflexivity|]. split; [|reflexivity].
  apply zsum_frames_of_successful.
  refine (Forall_impl _ _ Hall). intros x Hx. apply Hx.
Qed.

End TensorBounds.

Lemma get_tot_objf_and_num_frames_all_failed_witness :
  get_tot_objf_and_num_frames [neg_infinity; neg_infinity] [7]
  = Some (0%float, 0, Torch.isum [7]).
Proof.
  apply (get_tot_objf_and_num_frames_all_failed [neg_infinity; neg_infinity]).
  reflexivity.
Defined.

Lemma get_tot_objf_and_num_frames_kept_le_all_witness :
  exists tot_score ok_frames all_frames,
    get_tot_objf_and_num_frames
      [(-1.5)%float; neg_infinity; (-2.5)%float] [10; 20; 30]
    = Some (tot_score, ok_frames, all_frames)
    /\ 0 <= ok_frames <= all_frames
    /\ all_frames = zsum [10; 20; 30].
Proof.
  apply (get_tot_objf_and_num_frames_kept_le_all
           [(-1.5)%float; neg_infinity; (-2.5)%float] [10; 20; 30]).
  - reflexivity.
  - repeat (apply Forall_cons; [lia|]). apply Forall_nil.
  - simpl. lia.
Defined.

(** ** The sorted supervisions *)

Section SortedSupervisions.

Lemma stack3_combine (a : list Z) :
  forall b c : list Z,
    length b = length a -> length c = length a ->
    stack3 a b c = Ok (combine (combine a b) c).
Proof.
  induction a as [|x a IH]; intros [|y b] [|z c] Hb Hc; simpl in *;
    try discriminate; [reflexivity|].
  rewrite IH by congruence. reflexivity.
Qed.

Lemma stack3_raises (a : list Z) :
  forall b c : list Z,
    ~ (length b = length a /\ length c = length a) ->
    stack3 a b c = Raise RuntimeError.
Proof.
  induction a as [|x a IH]; intros [|y b] [|z c] H; simpl in *;
    try reflexivity.
  - exfalso. apply H. split; reflexivity.
  - rewrite IH; [reflexivity|]. intros [Hb Hc]. apply H. split; congruence.
Qed.

Lemma insert_desc_sorted (k : Z) (i : nat) (l : list (Z * nat)) :
  StronglySorted by_key_desc l ->
  StronglySorted by_key_desc (insert_desc k i l).
Proof.
  induction 1 as [|[k' i'] l Hl IH Hall]; simpl.
  - repeat constructor.
  - destruct (k' <=? k) eqn:Hle.
    + apply Z.leb_le in Hle. constructor; [constructor; assumption|].
      constructor; [exact Hle|].
      refine (Forall_impl _ _ Hall). unfold by_key_desc. simpl. lia.
    + apply Z.leb_gt in Hle. constructor; [exact IH|].
      apply (Permutation_Forall (Permutation_sym (insert_desc_perm k i l))).
      constructor; [unfold by_key_desc; simpl; lia | exact Hall].
Qed.

Lemma in_combine_seq (keys : list Z) :
  forall (start : nat) (k : Z) (i : nat),
    In (k, i) (combine keys (seq start (length keys))) ->
    (start <= i)%nat /\ nth_error keys (i - start) = Some k.
Proof.
  induction keys as [|x keys IH]; intros start k i Hin; [contradiction|].
  simpl in Hin. destruct Hin as [Heq | Hin].
  - injection Heq as <- <-. rewrite Nat.sub_diag. split; [lia|reflexivity].
  - apply IH in Hin as [Hle Hnth]. split; [lia|].
    replace (i - start)%nat with (S (i - S start)) by lia. exact Hnth.
Qed.

Lemma insertion_sorted (l : list (Z * nat)) :
  StronglySorted by_key_desc
    (fold_right (fun p acc => insert_desc (fst p) (snd p) acc) [] l).
Proof.
  induction l as [|[k i] l IH]; simpl; [constructor|].
  apply insert_desc_sorted, IH.
Qed.

Lemma insertion_perm (l : list (Z * nat)) :
  Permutation
    (fold_right (fun p acc => insert_desc (fst p) (snd p) acc) [] l) l.
Proof.
  induction l as [|[k i] l IH]; simpl; [reflexivity|].
  eapply perm_trans; [apply insert_desc_perm | apply perm_skip, IH].
Qed.

(** The keys at the indexes of [argsort_desc] descend. *)
Lemma argsort_desc_sorted (keys : list Z) :
  StronglySorted (fun x y => y <= x)
    (map (fun i => nth i keys 0) (argsort_desc keys)).
Proof.
  unfold argsort_desc.
  pose proof (insertion_sorted (combine keys (seq 0 (length keys))))
    as Hsorted.
  pose proof (insertion_perm (combine keys (seq 0 (length keys)))) as Hperm.
  set (pairs := fold_right (fun p acc => insert_desc (fst p) (snd p) acc) []
                  (combine keys (seq 0 (length keys)))) in *.
  assert (Hkeys : map (fun i => nth i keys 0) (map snd pairs) = map fst pairs).
  { rewrite map_map. apply map_ext_in. intros [k i] Hin.
    apply (Permutation_in _ Hperm), in_combine_seq in Hin as [_ Hnth].
    simpl. rewrite Nat.sub_0_r in Hnth. now apply nth_error_nth. }
  rewrite Hkeys. clear -Hsorted.
  induction Hsorted as [|p l _ IH Hall]; simpl; constructor; [exact IH|].
  apply Forall_map. exact Hall.
Qed.

Lemma gather_seq {A : Type} (d : A) (l : list A) :
  gather d l (seq 0 (length l)) = l.
Proof.
  unfold gather. induction l as [|x l IH] using rev_ind; [reflexivity|].
  rewrite length_app, Nat.add_1_r, seq_S, map_app. simpl.
  rewrite app_nth2, Nat.sub_diag by lia. simpl. f_equal.
  rewrite <- IH at 2. apply map_ext_in. intros i Hi.
  apply in_seq in Hi. apply app_nth1. lia.
Qed.

Lemma gather_permutation {A : Type} (d : A) (l : list A)
  (indexes : list nat) :
  Permutation indexes (seq 0 (length l)) ->
  Permutation (gather d l indexes) l.
Proof.
  intros H. rewrite <- (gather_seq d l) at 2.
  unfold gather. apply Permutation_map. exact H.
Qed.


(** [sorted_supervisions] up to the two gathers. *)
Lemma sorted_supervisions_unfold (sup : Supervisions) (subsampling : Z) :
  subsampling <> 0 ->
  length (start_frame sup) = length (sequence_idx sup) ->
  length (num_frames sup) = length (sequence_idx sup) ->
  let rows := subsampled_rows sup subsampling in
  let indices := argsort_desc (map seg_frames rows) in
  Permutation indices (seq 0 (length rows))
  /\ sorted_supervisions sup subsampling
     = match Torch.index_select (text sup) indices with
       | Some texts => Ok (gather no_segment rows indices, texts)
       | None => Raise IndexError
       end.
Proof.
  intros Hsub Hs Hn rows indices.
  assert (Hperm : Permutation indices (seq 0 (length rows))).
  { unfold indices. rewrite <- (length_map seg_frames rows).
    apply argsort_desc_perm. }
  split; [exact Hperm|].
  unfold sorted_supervisions, floor_divide.
  apply Z.eqb_neq in Hsub. rewrite Hsub.
  rewrite stack3_combine by (rewrite length_map; assumption).
  cbv zeta. fold (subsampled_rows sup subsampling). fold rows. fold indices.
  rewrite (index_select_some no_segment rows indices).
  - simpl. destruct (Torch.index_select (text sup) indices); reflexivity.
  - apply Forall_forall. intros i Hi.
    apply (Permutation_in _ Hperm), in_seq in Hi. lia.
Qed.


Lemma sorted_supervisions_inv (sup : Supervisions) (subsampling : Z)
  (segs : list segment) (texts : list string) :
  sorted_supervisions sup subsampling = Ok (segs, texts) ->
  let rows := subsampled_rows sup subsampling in
  (subsampling <> 0
   /\ length (start_frame sup) = length (sequence_idx sup)
   /\ length (num_frames sup) = length (sequence_idx sup))
  /\ exists indices,
    Permutation indices (seq 0 (length rows))
    /\ segs = gather no_segment rows indices
    /\ texts = gather EmptyString (text sup) indices
    /\ Permutation segs rows
    /\ StronglySorted longest_first segs.
Proof.
  intros H rows.
  assert (Hsub : subsampling <> 0).
  { intros ->. discriminate H. }
  destruct (Nat.eq_dec (length (start_frame sup)) (length (sequence_idx sup)))
    as [Hs|Hs].
  2: { unfold sorted_supervisions, floor_divide in H.
       apply Z.eqb_neq in Hsub. rewrite Hsub in H.
       rewrite stack3_raises in H; [discriminate|].
       rewrite !length_map. tauto. }
  destruct (Nat.eq_dec (length (num_frames sup)) (length (sequence_idx sup)))
    as [Hn|Hn].
  2: { unfold sorted_supervisions, floor_divide in H.
       apply Z.eqb_neq in Hsub. rewrite Hsub in H.
       rewrite stack3_raises in H; [discriminate|].
       rewrite !length_map. tauto. }
  destruct (sorted_supervisions_unfold sup subsampling Hsub Hs Hn)
    as [Hperm Heq].
  fold rows in Hperm, Heq. rewrite Heq in H.
  set (indices := argsort_desc (map seg_frames rows)) in *.
  split; [repeat split; assumption|].
  exists indices.
  destruct (Torch.index_select (text sup) indices) as [texts'|] eqn:Htexts;
    [|discriminate].
  injection H as <- <-.
  split; [exact Hperm|]. split; [reflexivity|]. split.
  - destruct (Forall_Exists_dec (fun i => (i < length (text sup))%nat)
                (fun i => lt_dec i (length (text sup))) indices)
      as [Hall | Hex].
    + rewrite (index_select_some EmptyString _ _ Hall) in Htexts.
      congruence.
    + rewrite index_select_none in Htexts; [discriminate|].
      apply Exists_exists in Hex as (i & Hin & Hi).
      apply Exists_exists. exists i. split; [exact Hin | lia].
  - split; [apply gather_permutation, Hperm|].
    pose proof (argsort_desc_sorted (map seg_frames rows)) as Hsorted.
    fold indices in Hsorted.
    assert (Hmap : map (fun i => nth i (map seg_frames rows) 0) indices
                   = map seg_frames (gather no_segment rows indices)).
    { unfold gather. rewrite map_map. apply map_ext. intros i.
      change 0 with (seg_frames no_segment) at 1. apply map_nth. }
    rewrite Hmap in Hsorted. clear -Hsorted.
    induction (gather no_segment rows indices) as [|s l IH]; [constructor|].
    simpl in Hsorted. inversion Hsorted as [|? ? Hl Hall]; subst.
    constructor; [apply IH, Hl|].
    rewrite Forall_map in Hall. exact Hall.
Qed.

(** X5. What the sorting keeps: the sorted segments are the subsampled int32
    segments in another order, longest first, and the texts are moved
    with their segments. *)
Theorem sorted_supervisions_sorted (sup : Supervisions) (subsampling : Z)
  (segs : list segment) (texts : list string) :
  sorted_supervisions sup subsampling = Ok (segs, texts) ->
  let rows := subsampled_rows sup subsampling in
  exists indices,
    Permutation indices (seq 0 (length rows))
    /\ segs = gather no_segment rows indices
    /\ texts = gather EmptyString (text sup) indices
    /\ Permutation segs rows
    /\ StronglySorted longest_first segs.
Proof.
  intros H. exact (proj2 (sorted_supervisions_inv sup subsampling segs texts H)).
Qed.

End SortedSupervisions.

Lemma sorted_supervisions_sorted_witness :
  exists indices,
    Permutation indices (seq 0 2)
    /\ [(1, 0, 20); (0, 0, 10)]
       = gather no_segment (subsampled_rows (supervisions Toy.two_segments) 4)
           indices
    /\ ["dos"%string; "uno"%string]
       = gather EmptyString ["uno"%string; "dos"%string] indices
    /\ Permutation [(1, 0, 20); (0, 0, 10)]
         (subsampled_rows (supervisions Toy.two_segments) 4)
    /\ StronglySorted longest_first [(1, 0, 20); (0, 0, 10)].
Proof.
  apply (sorted_supervisions_sorted (supervisions Toy.two_segments) 4
           [(1, 0, 20); (0, 0, 10)] ["dos"%string; "uno"%string]).
  reflexivity.
Defined.

(** ** One call of get_objf *)

Section OneCall.

Context {E : Externals}.

Lemma sorted_supervisions_raise_kinds (sup : Supervisions) (subsampling : Z)
  (e : exn) :
  sorted_supervisions sup subsampling = Raise e ->
  e = RuntimeError \/ e = IndexError.
Proof.
  unfold sorted_supervisions, floor_divide.
  destruct (subsampling =? 0); [intros H; injection H as <-; auto|].
  assert (Hstack : forall a b c e', stack3 a b c = Raise e' ->
                                    e' = RuntimeError).
  { induction a as [|x a IH]; intros [|y b] [|z c] e' H; simpl in H;
      try (injection H as <-; reflexivity); try discriminate.
    destruct (stack3 a b c) eqn:Hrec; [discriminate|].
    injection H as <-. exact (IH _ _ _ Hrec). }
  destruct (stack3 _ _ _) as [rows|e'] eqn:Hrows.
  - cbv zeta.
    destruct (Torch.index_select (to_int32 rows) _); simpl;
      [|intros H; injection H as <-; auto].
    destruct (Torch.index_select (text sup) _); simpl;
      [discriminate | intros H; injection H as <-; auto].
  - intros H. injection H as <-. left. exact (Hstack _ _ _ _ Hrows).
Qed.



Lemma zsum_permutation (l l' : list Z) :
  Permutation l l' -> zsum l = zsum l'.
Proof. induction 1; simpl; lia. Qed.

Lemma wrap32_small (z : Z) : - 2 ^ 31 <= z < 2 ^ 31 -> wrap32 z = z.
Proof.
  intros H. unfold wrap32, wrap.
  change (2 ^ (32 - 1)) with (2 ^ 31).
  rewrite Z.mod_small; [ring|].
  change (2 ^ 32) with (2 * 2 ^ 31). lia.
Qed.

Lemma subsampled_rows_frames (sup : Supervisions) (subsampling : Z) :
  length (start_frame sup) = length (sequence_idx sup) ->
  length (num_frames sup) = length (sequence_idx sup) ->
  map seg_frames (subsampled_rows sup subsampling)
  = map (fun n => wrap32 (n / subsampling)) (num_frames sup).
Proof.
  unfold subsampled_rows, to_int32.
  generalize (sequence_idx sup) (start_frame sup) (num_frames sup).
  induction l as [|x a IH]; intros [|y b] [|z c] Hb Hc; simpl in *;
    try discriminate; [reflexivity|].
  f_equal. apply IH; congruence.
Qed.

(** X8. With a positive subsampling factor and numbers of frames that are
    not negative (int32, fewer than 2^32 supervisions), the frames that
    [get_objf] reports as kept are at least 0 and at most all frames,
    and all frames are the exact sum of the subsampled numbers. *)
Theorem get_objf_kept_le_all (batch : Batch E) (gc : GraphCompiler E)
  (training : bool) (w : World E) (objf : float) (frames all_frames : Z) :
  0 < subsampling_factor E (w_model w) ->
  Forall (fun n => 0 <= n <= 2 ^ 31 - 1) (num_frames (supervisions batch)) ->
  Z.of_nat (length (num_frames (supervisions batch))) < 2 ^ 32 ->
  result_of (get_objf E batch gc training w) = Ok (objf, frames, all_frames) ->
  0 <= frames <= all_frames
  /\ all_frames
     = zsum (map (fun n => n / subsampling_factor E (w_model w))
               (num_frames (supervisions batch))).
Proof.
  intros Hsub Hall Hsmall H.
  set (sf := subsampling_factor E (w_model w)) in *.
  destruct (get_objf_cases batch gc training w)
    as [[e He] | (segs & texts & Hsup & Hrun)];
    rewrite ?He, ?Hrun in H; [discriminate|].
  fold sf in Hsup.
  injection H as _ <- <-.
  destruct (sorted_supervisions_inv _ _ _ _ Hsup)
    as [(_ & Hs & Hn) (indices & _ & _ & _ & Hperm & _)].
  set (scores := batch_tot_scores gc (w_model w) batch segs texts).
  assert (Hscores : length scores = length (map seg_frames segs)).
  { unfold scores, batch_tot_scores.
    now rewrite tot_scores_per_segment, length_map. }
  assert (Hframes : map (fun n => wrap32 (n / sf))
                      (num_frames (supervisions batch))
                    = map (fun n => n / sf) (num_frames (supervisions batch))).
  { apply map_ext_in. intros n Hn'. rewrite Forall_forall in Hall.
    specialize (Hall n Hn'). apply wrap32_small.
    assert (0 <= n / sf <= n).
    { split; [apply Z.div_pos; lia|].
      apply Z.div_le_upper_bound; [lia|]. nia. }
    change (2 ^ 31) with 2147483648 in *. lia. }
  assert (Hpermf : Permutation (map seg_frames segs)
                     (map (fun n => n / sf) (num_frames (supervisions batch)))).
  { rewrite <- Hframes, <- (subsampled_rows_frames _ _ Hs Hn).
    apply Permutation_map, Hperm. }
  assert (Hbound : Forall (fun x => 0 <= x <= 2 ^ 31 - 1)
                     (map seg_frames segs)).
  { apply (Permutation_Forall (Permutation_sym Hpermf)).
    apply Forall_map. refine (Forall_impl _ _ Hall). intros n Hn'.
    assert (0 <= n / sf <= n).
    { split; [apply Z.div_pos; lia|].
      apply Z.div_le_upper_bound; [lia|]. nia. }
    lia. }
  assert (Hlen : Z.of_nat (length (map seg_frames segs)) < 2 ^ 32).
  { rewrite (Permutation_length Hpermf), length_map. exact Hsmall. }
  assert (Hbound32 : Forall (fun x => - 2 ^ 31 <= x <= 2 ^ 31 - 1)
                       (map seg_frames segs)).
  { refine (Forall_impl _ _ Hbound). intros x Hx.
    change (2 ^ 31) with 2147483648 in *. lia. }
  destruct (gather_successful_bounds scores (map seg_frames segs) _ _
              Hscores Hbound32) as [Hok Hoklen].
  rewrite <- (frames_of_successful_gather _ _ Hscores) in Hok, Hoklen.
  unfold objf_of_scores. cbn [fst snd]. fold scores.
  rewrite !isum_zsum, (wrap64_zsum_exact _ Hbound32 Hlen),
    (wrap64_zsum_exact _ Hok) by lia.
  split.
  - apply zsum_frames_of_successful.
    refine (Forall_impl _ _ Hbound). intros x Hx. apply Hx.
  - apply zsum_permutation, Hpermf.
Qed.

End OneCall.


Lemma get_objf_kept_le_all_witness :
  0 <= 30 <= 30 /\ 30 = zsum (map (fun n => n / 4) [40; 80]).
Proof.
  apply (get_objf_kept_le_all (E := Toy.E) Toy.two_segments tt true Toy.world
           8%float 30 30).
  - reflexivity.
  - repeat constructor; simpl; lia.
  - reflexivity.
  - vm_compute. reflexivity.
Defined.

(** ** Validation passes and optimizer steps *)

Section Counts.

Context {E : Externals}.

Lemma count_events_app (p : event E -> bool) (t1 t2 : list (event E)) :
  count_events p (t1 ++ t2) = (count_events p t1 + count_events p t2)%nat.
Proof. unfold count_events. now rewrite filter_app, length_app. Qed.

Lemma count_events_none (p : event E -> bool) (t : list (event E)) :
  Forall (fun ev => p ev = false) t -> count_events p t = 0%nat.
Proof.
  unfold count_events. induction 1 as [|ev t Hev _ IH]; simpl;
    [reflexivity|]. now rewrite Hev.
Qed.

Lemma for_enumerate_world {X St : Type} (body : St -> nat -> X -> M E St)
  (xs : list X) :
  (forall s idx x w, world_of (body s idx x w) = w) ->
  forall idx s w, world_of (for_enumerate body idx xs s w) = w.
Proof.
  intros Hbody. induction xs as [|x xs IH]; intros idx s w; simpl;
    [reflexivity|].
  destruct (bind_cases (body s idx x)
              (fun s' => for_enumerate body (S idx) xs s') w)
    as [(s' & _ & _ & -> & _) | (e & _ & _ & -> & _)].
  - rewrite IH. apply Hbody.
  - apply Hbody.
Qed.

Lemma get_objf_validation_world (batch : Batch E) (gc : GraphCompiler E)
  (w : World E) :
  world_of (get_objf E batch gc false w) = w.
Proof.
  destruct (get_objf_cases batch gc false w)
    as [[e ->] | (segs & texts & _ & ->)]; reflexivity.
Qed.

Lemma validation_world (dl : list (Batch E)) (gc : GraphCompiler E)
  (w : World E) :
  world_of (get_validation_objf E dl gc w)
  = Build_World E (model_eval E (w_model w)) (w_optimizer w).
Proof.
  unfold get_validation_objf, bind at 1 2 3, get_model, put_model, emit.
  simpl.
  match goal with
  | |- context [for_enumerate ?body ?idx ?xs ?s ?w0] =>
      pose proof (for_enumerate_world body xs) as Hloop;
      specialize (Hloop ltac:(
        intros s' idx' x' w';
        destruct (bind_cases (get_objf E x' gc false)
                    (fun r => ret (add_batch s' r)) w')
          as [(r & _ & _ & -> & _) | (e & _ & _ & -> & _)];
        exact (get_objf_validation_world x' gc w')) idx s w0);
      destruct (for_enumerate body idx xs s w0) as [[t w1] r]
  end.
  simpl in *. exact Hloop.
Qed.

Lemma validation_trace (dl : list (Batch E)) (gc : GraphCompiler E)
  (w : World E) :
  exists t,
    trace_of (get_validation_objf E dl gc w) = EvModelEval :: t
    /\ Forall (batch_event false) t.
Proof.
  unfold get_validation_objf, bind at 1 2 3, get_model, put_model, emit.
  simpl.
  match goal with
  | |- context [for_enumerate ?body ?idx ?xs ?s ?w0] =>
      assert (Hloop : Forall (batch_event false)
                        (trace_of (for_enumerate body idx xs s w0)));
      [ apply emits_at; repeat emits_step; apply get_objf_emits |];
      destruct (for_enumerate body idx xs s w0) as [[t w1] r]
  end.
  simpl in *. exists t. split; [reflexivity | exact Hloop].
Qed.

(** X9. A validation pass trains nothing: whatever it returns or raises, no
    optimizer step is made, the network is only called in evaluation
    mode, and afterwards the optimizer is as before and the model is the
    same model in evaluation mode. *)
Theorem validation_trains_nothing (dl : list (Batch E))
  (gc : GraphCompiler E) (w : World E) :
  let run := get_validation_objf E dl gc w in
  world_of run = Build_World E (model_eval E (w_model w)) (w_optimizer w)
  /\ count_events is_optimizer_step (trace_of run) = 0%nat
  /\ Forall (fun training => training = false) (model_calls (trace_of run)).
Proof.
  cbv zeta. split; [apply validation_world|].
  destruct (validation_trace dl gc w) as (t & -> & Hev). split.
  - apply count_events_none. constructor; [reflexivity|].
    refine (Forall_impl _ _ Hev). intros ev.
    destruct ev; simpl; auto; discriminate.
  - unfold model_calls. simpl. clear -Hev.
    induction Hev as [|ev t Hev _ IH]; simpl; [constructor|].
    apply Forall_app. split; [|exact IH].
    destruct ev; simpl in *; auto.
Qed.

Lemma validate_run (vdl : list (Batch E)) (gc : GraphCompiler E)
  (global_idx : Z) (w : World E) :
  let run := validate E vdl gc global_idx w in
  count_events is_model_eval (trace_of run) = 1%nat
  /\ count_events is_optimizer_step (trace_of run) = 0%nat
  /\ (forall v, result_of run = Ok v ->
        world_of run
        = Build_World E (model_train E (model_eval E (w_model w)))
            (w_optimizer w)).
Proof.
  cbv zeta. unfold validate.
  destruct (validation_trace vdl gc w) as (t & Ht & Hev).
  pose proof (validation_world vdl gc w) as Hw.
  assert (Hquiet : forall p : event E -> bool,
            p EvModelTrain = false ->
            (forall l m, p (EvLog l m) = false) ->
            (forall tag v s, p (EvAddScalar tag v s) = false) ->
            forall tot,
              emits (fun ev => p ev = false)
                (match tot with
                 | (total_valid_objf, total_valid_frames,
                    total_valid_all_frames) =>
                     bind (py_div E total_valid_objf total_valid_frames)
                       (fun valid_average =>
                          bind (set_model_train E)
                            (fun _ =>
                               bind (py_div E (100 * total_valid_frames)
                                       total_valid_all_frames)
                                 (fun kept =>
                                    bind (emit (EvLog INFO
                                                  (MsgValidation valid_average
                                                     total_valid_frames kept)))
                                      (fun _ =>
                                         bind (emit
                                                 (EvAddScalar
                                                    "train/global_valid_average_objf"
                                                    valid_average global_idx))
                                           (fun _ => ret valid_average)))))
                 end)).
  { intros p H1 H2 H3 [[a b] c]. unfold set_model_train.
    repeat emits_step; auto. }
  rewrite trace_of_bind, !count_events_app, Ht.
  assert (Heval : count_events is_model_eval (EvModelEval :: t) = 1%nat).
  { unfold count_events. simpl. f_equal.
    apply (count_events_none is_model_eval).
    refine (Forall_impl _ _ Hev). intros ev.
    destruct ev; simpl; try tauto; auto. }
  assert (Hstep : count_events is_optimizer_step (EvModelEval :: t) = 0%nat).
  { apply count_events_none. constructor; [reflexivity|].
    refine (Forall_impl _ _ Hev). intros ev.
    destruct ev; simpl; auto; discriminate. }
  rewrite Heval, Hstep.
  split; [|split].
  - destruct (result_of (get_validation_objf E vdl gc w)) as [tot|e];
      [|reflexivity].
    rewrite (count_events_none is_model_eval); [reflexivity|].
    apply (emits_at _ _ _ (Hquiet is_model_eval eq_refl
                             (fun _ _ => eq_refl) (fun _ _ _ => eq_refl) tot)).
  - destruct (result_of (get_validation_objf E vdl gc w)) as [tot|e];
      [|reflexivity].
    rewrite (count_events_none is_optimizer_step); [reflexivity|].
    apply (emits_at _ _ _ (Hquiet is_optimizer_step eq_refl
                             (fun _ _ => eq_refl) (fun _ _ _ => eq_refl) tot)).
  - intros v H.
    apply bind_ok_inv in H as ([[a b] c] & _ & _ & -> & H).
    rewrite Hw in *.
    apply bind_ok_inv in H as (avg & Hdiv & _ & -> & H).
    assert (Hdivw : forall x y w', world_of (py_div E x y w') = w').
    { intros x y w'. unfold py_div. destruct (PrimFloat.eqb y 0); reflexivity. }
    rewrite Hdivw in *.
    apply bind_ok_inv in H as (u & _ & _ & -> & H).
    change (world_of (set_model_train E
                        (Build_World E (model_eval E (w_model w))
                           (w_optimizer w))))
      with (Build_World E (model_train E (model_eval E (w_model w)))
              (w_optimizer w)) in *.
    apply bind_ok_inv in H as (kept & _ & _ & -> & H).
    rewrite Hdivw in *.
    apply bind_ok_inv in H as (u1 & _ & _ & -> & H). rewrite world_of_emit in *.
    apply bind_ok_inv in H as (u2 & _ & _ & -> & H). rewrite world_of_emit in *.
    reflexivity.
Qed.

Lemma report_batch_quiet (p : event E -> bool) (batch_idx current_epoch
  epochs : nat) (acc : totals) (r : float * Z * Z) (global_idx : Z) :
  (forall l m, p (EvLog l m) = false) ->
  (forall tag v s, p (EvAddScalar tag v s) = false) ->
  emits (fun ev => p ev = false)
    (report_batch E batch_idx current_epoch epochs acc r global_idx).
Proof.
  intros H1 H2. unfold report_batch. repeat emits_step; auto.
Qed.

Lemma train_batch_counts (vdl : list (Batch E)) (gc : GraphCompiler E)
  (current_epoch epochs : nat) (st st' : TrainState) (idx : nat)
  (b : Batch E) (w : World E) :
  let run := train_batch E vdl gc current_epoch epochs st idx b w in
  result_of run = Ok st' ->
  count_events is_optimizer_step (trace_of run) = 1%nat
  /\ count_events is_model_eval (trace_of run)
     = (if validation_due idx then 1 else 0)%nat.
Proof.
  cbv zeta. unfold train_batch.
  change ((0 <? idx)%nat && (idx mod 200 =? 0)%nat) with (validation_due idx).
  intros H.
  apply bind_ok_inv in H as (r & Hobjf & -> & _ & H).
  apply bind_ok_inv in H as (u & _ & -> & _ & H).
  apply bind_ok_inv in H as (v & _ & -> & _ & _).
  rewrite !count_events_app.
  assert (Hcall : count_events is_optimizer_step
                    (trace_of (get_objf E b gc true w)) = 1%nat
                  /\ count_events is_model_eval
                       (trace_of (get_objf E b gc true w)) = 0%nat).
  { destruct (get_objf_cases b gc true w)
      as [[e He] | (segs & texts & _ & Hrun)];
      rewrite ?He, ?Hrun in *; [discriminate|].
    split; reflexivity. }
  destruct Hcall as [-> ->].
  assert (Hreport : forall p : event E -> bool,
            (forall l m, p (EvLog l m) = false) ->
            (forall tag v s, p (EvAddScalar tag v s) = false) ->
            forall w',
              count_events p
                (trace_of
                   ((if (idx mod 10 =? 0)%nat
                     then report_batch E idx current_epoch epochs
                            (add_batch (ts_totals st) r) r
                            (global_batch_idx_train st + 1)
                     else ret tt) w')) = 0%nat).
  { intros p H1 H2 w'. apply count_events_none, emits_at.
    destruct (idx mod 10 =? 0)%nat;
      [apply report_batch_quiet; assumption | apply emits_ret]. }
  rewrite !Hreport by reflexivity.
  destruct (validation_due idx).
  - match goal with
    | |- context [validate E vdl gc ?g ?w'] =>
        destruct (validate_run vdl gc g w') as (-> & -> & _)
    end.
    split; reflexivity.
  - split; reflexivity.
Qed.

Lemma train_loop_counts (vdl : list (Batch E)) (gc : GraphCompiler E)
  (current_epoch epochs : nat) (bs : list (Batch E)) :
  forall (idx : nat) (st st' : TrainState) (w : World E),
    let run :=
      for_enumerate (train_batch E vdl gc current_epoch epochs) idx bs st w in
    result_of run = Ok st' ->
    count_events is_optimizer_step (trace_of run) = length bs
    /\ count_events is_model_eval (trace_of run)
       = length (filter validation_due (seq idx (length bs))).
Proof.
  induction bs as [|b bs IH]; intros idx st st' w; simpl.
  - intros _. split; reflexivity.
  - intros H.
    apply bind_ok_inv in H as (st1 & Hbody & -> & _ & Hrest).
    apply train_batch_counts in Hbody as [Hs He].
    apply IH in Hrest as [Hs' He'].
    rewrite !count_events_app, Hs, He, Hs', He'.
    split; [reflexivity|]. destruct (validation_due idx); reflexivity.
Qed.

Lemma validation_due_count (n : nat) :
  length (filter validation_due (seq 0 n)) = ((n - 1) / 200)%nat.
Proof.
  induction n as [|n IH]; [reflexivity|].
  rewrite seq_S, filter_app, length_app, IH.
  change (filter validation_due [(0 + n)%nat])
    with (if validation_due n then [n] else []).
  replace (S n - 1)%nat with n by lia.
  destruct n as [|m]; [reflexivity|].
  replace (S m - 1)%nat with m by lia.
  unfold validation_due. change (0 <? S m)%nat with true.
  rewrite andb_true_l.
  pose proof (Nat.div_mod_eq m 200) as Hm.
  pose proof (Nat.mod_upper_bound m 200 ltac:(lia)) as Hr.
  destruct (Nat.eq_dec (m mod 200) 199) as [Hlast | Hlast].
  - assert (Hdiv : (S m / 200 = S (m / 200))%nat).
    { symmetry. apply (Nat.div_unique (S m) 200 (S (m / 200)) 0); lia. }
    assert (Hmod : (S m mod 200 = 0)%nat).
    { symmetry. apply (Nat.mod_unique (S m) 200 (S (m / 200)) 0); lia. }
    rewrite Hdiv, Hmod, Nat.eqb_refl. cbn [length]. lia.
  - assert (Hdiv : (S m / 200 = m / 200)%nat).
    { symmetry.
      apply (Nat.div_unique (S m) 200 (m / 200) (S (m mod 200))); lia. }
    assert (Hmod : (S m mod 200 = S (m mod 200))%nat).
    { symmetry.
      apply (Nat.mod_unique (S m) 200 (m / 200) (S (m mod 200))); lia. }
    rewrite Hdiv, Hmod. change (S (m mod 200) =? 0)%nat with false.
    cbn [length]. lia.
Qed.

(** X10. An epoch of [n] batches that returns has stepped the optimizer [n]
    times, once per batch, and has run [(n - 1) / 200] validation passes
    (one after each batch whose index is a positive multiple of 200). *)
Theorem train_one_epoch_counts (dl vdl : list (Batch E))
  (gc : GraphCompiler E) (current_epoch epochs : nat) (global_idx : Z)
  (w : World E) (r : float * float * Z) :
  let run := train_one_epoch E dl vdl gc current_epoch epochs global_idx w in
  result_of run = Ok r ->
  count_events is_optimizer_step (trace_of run) = length dl
  /\ count_events is_model_eval (trace_of run)
     = ((length dl - 1) / 200)%nat.
Proof.
  cbv zeta. unfold train_one_epoch, train_loop. intros H.
  apply bind_ok_inv in H as (st & Hloop & -> & _ & H).
  apply bind_ok_inv in Hloop as (u & _ & -> & _ & Hloop).
  apply train_loop_counts in Hloop as [Hs He].
  rewrite !count_events_app, Hs, He, validation_due_count.
  destruct (ts_totals st) as [[total_objf total_frames] total_all].
  apply bind_ok_inv in H as (avg & _ & -> & _ & _).
  rewrite !count_events_app.
  assert (Hdiv : forall (p : event E -> bool) x y w',
            count_events p (trace_of (py_div E x y w')) = 0%nat).
  { intros p x y w'. unfold py_div.
    destruct (PrimFloat.eqb y 0); reflexivity. }
  assert (Hset : forall p : event E -> bool,
            p EvModelTrain = false ->
            count_events p (trace_of (set_model_train E w)) = 0%nat).
  { intros p Hp. unfold count_events. cbn. now rewrite Hp. }
  assert (Hret : forall (p : event E -> bool) (x : float * float * Z) w',
            count_events p (trace_of (ret x w')) = 0%nat) by reflexivity.
  rewrite !Hdiv, !Hret, !Hset by reflexivity. split; lia.
Qed.

(** X11. What [train_one_epoch] returns: the quotient of the summed
    objectives by the summed frames kept, which are not zero, and the
    batch counter advanced by the number of batches.  A loader that
    yields no batch makes it raise ZeroDivisionError. *)
Theorem train_one_epoch_returns :
  (forall (dl vdl : list (Batch E)) (gc : GraphCompiler E)
          (current_epoch epochs : nat) (global_idx : Z) (w : World E)
          (average valid : float) (global_idx' : Z),
      let run :=
        train_one_epoch E dl vdl gc current_epoch epochs global_idx w in
      result_of run = Ok (average, valid, global_idx') ->
      let rs := objf_returns true (trace_of run) in
      length rs = length dl
      /\ global_idx' = global_idx + Z.of_nat (length dl)
      /\ PrimFloat.eqb (snd (fst (column_sums rs))) 0 = false
      /\ average
         = (fst (fst (column_sums rs)) / snd (fst (column_sums rs)))%float)
  /\ (forall (vdl : list (Batch E)) (gc : GraphCompiler E)
             (current_epoch epochs : nat) (global_idx : Z) (w : World E),
         result_of
           (train_one_epoch E [] vdl gc current_epoch epochs global_idx w)
         = Raise ZeroDivisionError).
Proof.
  split; [|reflexivity].
  intros dl vdl gc current_epoch epochs global_idx w average valid
    global_idx'. cbv zeta. unfold train_one_epoch. intros H.
  apply bind_ok_inv in H as (st & Hloop & -> & _ & H).
  pose proof (train_loop_sums dl vdl gc current_epoch epochs global_idx w st
                Hloop) as [Hlen Hsums].
  assert (Hidx : global_batch_idx_train st
                 = global_idx + Z.of_nat (length dl)).
  { unfold train_loop in Hloop.
    apply bind_ok_inv in Hloop as (u & _ & _ & _ & Hloop).
    apply train_loop_totals in Hloop as (_ & _ & Hidx). exact Hidx. }
  destruct (ts_totals st) as [[total_objf total_frames] total_all] eqn:Htot.
  assert (Hquiet : objf_returns true
                     (trace_of
                        (bind (py_div E total_objf total_frames)
                           (fun average0 =>
                              ret (average0, valid_average_objf st,
                                   global_batch_idx_train st))
                           (world_of
                              (train_loop E dl vdl gc current_epoch epochs
                                 global_idx w)))) = []).
  { apply objf_returns_none, emits_at. repeat emits_step. }
  rewrite objf_returns_app, Hquiet, app_nil_r. rewrite <- Hsums.
  cbn [fst snd].
  apply bind_ok_inv in H as (avg & Hdiv & _ & _ & H).
  injection H as <- _ <-.
  unfold py_div in Hdiv.
  destruct (PrimFloat.eqb total_frames 0) eqn:Hzero; [discriminate|].
  injection Hdiv as <-. repeat split; assumption.
Qed.

End Counts.

Lemma train_one_epoch_counts_witness :
  let run :=
    train_one_epoch Toy.E (repeat Toy.two_segments 201) [Toy.two_segments]
      tt 0 8 0 Toy.world in
  count_events is_optimizer_step (trace_of run) = 201%nat
  /\ count_events is_model_eval (trace_of run) = 1%nat.
Proof.
  intros run.
  eapply (train_one_epoch_counts (E := Toy.E) (repeat Toy.two_segments 201)
            [Toy.two_segments] tt 0 8 0 Toy.world).
  vm_compute. reflexivity.
Defined.

(** ** A first batch without a successful segment *)

Section FirstBatch.

Context {E : Externals}.

Lemma report_batch_no_frames (batch_idx current_epoch epochs : nat)
  (objf : float) (all_frames global_idx : Z) (w : World E) :
  report_batch E batch_idx current_epoch epochs
    (add_batch (0%float, 0%float, 0%float) (objf, 0, all_frames))
    (objf, 0, all_frames) global_idx w
  = ([], w, Raise ZeroDivisionError).
Proof. reflexivity. Qed.

(** X12. When no segment of the first batch of an epoch has a finite score,
    the progress report of that batch divides by the zero frames kept so
    far: [train_one_epoch] raises ZeroDivisionError, after the call of
    [get_objf] on that batch and before anything is logged. *)
Theorem train_one_epoch_first_batch_no_frames (batch : Batch E)
  (dl vdl : list (Batch E)) (gc : GraphCompiler E)
  (current_epoch epochs : nat) (global_idx : Z) (w : World E)
  (objf : float) (all_frames : Z) :
  let w1 :=
    {| w_model := model_train E (w_model w);
       w_optimizer := w_optimizer w |} in
  let run :=
    train_one_epoch E (batch :: dl) vdl gc current_epoch epochs global_idx
      w in
  result_of (get_objf E batch gc true w1) = Ok (objf, 0, all_frames) ->
  result_of run = Raise ZeroDivisionError
  /\ trace_of run = EvModelTrain :: trace_of (get_objf E batch gc true w1)
  /\ world_of run = world_of (get_objf E batch gc true w1).
Proof.
  intros w1 run Hobjf. subst run.
  assert (Hbatch :
            train_batch E vdl gc current_epoch epochs
              {| ts_totals := (0%float, 0%float, 0%float);
                 valid_average_objf := infinity;
                 global_batch_idx_train := global_idx |} 0 batch w1
            = (trace_of (get_objf E batch gc true w1),
               world_of (get_objf E batch gc true w1),
               Raise ZeroDivisionError)).
  { unfold train_batch.
    destruct (get_objf E batch gc true w1) as [[t1 w2] r] eqn:Hrun.
    simpl in Hobjf. subst r.
    rewrite (bind_ok _ _ w1 w2 t1 (objf, 0, all_frames) Hrun).
    change (0 mod 10 =? 0)%nat with true. cbv iota.
    rewrite (bind_raise _ _ w2 w2 [] ZeroDivisionError
               (report_batch_no_frames 0 current_epoch epochs objf all_frames
                  (global_idx + 1) w2)).
    cbn [trace_of world_of result_of fst snd]. now rewrite app_nil_r. }
  unfold train_one_epoch, train_loop.
  assert (Hset : set_model_train E w = ([EvModelTrain], w1, Ok tt))
    by reflexivity.
  cbn [for_enumerate].
  rewrite (bind_raise _ _ w (world_of (get_objf E batch gc true w1))
             (EvModelTrain :: trace_of (get_objf E batch gc true w1))
             ZeroDivisionError).
  - repeat split.
  - rewrite (bind_ok _ _ w w1 [EvModelTrain] tt Hset).
    rewrite (bind_raise _ _ w1 _ _ ZeroDivisionError Hbatch).
    reflexivity.
Qed.

End FirstBatch.

Lemma train_one_epoch_first_batch_no_frames_witness :
  let batch :=
    Toy.batch [neg_infinity; neg_infinity] [40; 80]
      ["uno"%string; "dos"%string] in
  result_of
    (train_one_epoch Toy.E [batch; Toy.two_segments] [] tt 0 8 0 Toy.world)
  = Raise ZeroDivisionError.
Proof.
  intros batch.
  eapply (train_one_epoch_first_batch_no_frames (E := Toy.E) batch
            [Toy.two_segments] [] tt 0 8 0 Toy.world).
  vm_compute. reflexivity.
Defined.

(** ** The files of a run *)

Section FileNames.

Local Open Scope string_scope.

Lemma string_length_append (s t : string) :
  String.length (s ++ t) = (String.length s + String.length t)%nat.
Proof. induction s as [|c s IH]; simpl; [reflexivity|]. now rewrite IH. Qed.

Lemma append_inv_tail (t : string) :
  forall s1 s2 : string, s1 ++ t = s2 ++ t -> s1 = s2.
Proof.
  induction s1 as [|c1 s1 IH]; intros [|c2 s2] H; simpl in H.
  - reflexivity.
  - apply (f_equal String.length) in H. simpl in H.
    rewrite string_length_append in H. lia.
  - apply (f_equal String.length) in H. simpl in H.
    rewrite string_length_append in H. lia.
  - injection H as <- H. f_equal. exact (IH _ H).
Qed.

Lemma last_char_append (s : string) (c : ascii) (t : string) (d : ascii) :
  last_char (s ++ String c t) d = last_char t c.
Proof. revert d. induction s as [|c' s IH]; intros d; simpl; auto. Qed.

Lemma format_nat_inj (n m : nat) : format_nat n = format_nat m -> n = m.
Proof.
  unfold format_nat. intros H. apply DecimalNat.Unsigned.to_uint_inj.
  apply (f_equal NilEmpty.uint_of_string) in H.
  rewrite !NilEmpty.usu in H. now injection H.
Qed.

(** X13. No file of a run is written under the name of another: the
    checkpoints and the info files of different epochs have different
    names, and none of them is the best model or the best-epoch info
    file. *)
Theorem run_files_distinct :
  (forall e1 e2, epoch_model_path e1 = epoch_model_path e2 -> e1 = e2)
  /\ (forall e1 e2, epoch_info_filename e1 = epoch_info_filename e2 ->
                    e1 = e2)
  /\ (forall e1 e2, epoch_model_path e1 <> epoch_info_filename e2)
  /\ (forall e, epoch_model_path e <> best_model_path
                /\ epoch_model_path e <> best_epoch_info_filename
                /\ epoch_info_filename e <> best_model_path
                /\ epoch_info_filename e <> best_epoch_info_filename)
  /\ best_model_path <> best_epoch_info_filename.
Proof.
  repeat split.
  - intros e1 e2 H. unfold epoch_model_path, os_path_join in H.
    simpl in H. repeat (injection H as H).
    apply format_nat_inj, (append_inv_tail ".pt"). exact H.
  - intros e1 e2 H. unfold epoch_info_filename, os_path_join in H.
    simpl in H. repeat (injection H as H).
    apply format_nat_inj, (append_inv_tail "-info"). exact H.
  - intros e1 e2 H. unfold epoch_model_path, epoch_info_filename,
      os_path_join in H.
    simpl in H. repeat (injection H as H).
    apply (f_equal (fun s => last_char s "x"%char)) in H.
    change ".pt" with (String "." (String "p" (String "t" ""))) in H.
    change "-info" with (String "-" "info") in H.
    rewrite !last_char_append in H. simpl in H. discriminate.
  - unfold epoch_model_path, best_model_path. simpl. discriminate.
  - unfold epoch_model_path, best_epoch_info_filename. simpl. discriminate.
  - unfold epoch_info_filename, best_model_path. simpl. discriminate.
  - unfold epoch_info_filename, best_epoch_info_filename. simpl.
    discriminate.
  - discriminate.
Qed.

End FileNames.

(** ** A run of main, in two parts *)

Section MainParts.

Context {E : Externals}.

Lemma bind_assoc {A B C : Type} (c : M E A) (f : A -> M E B)
  (g : B -> M E C) (w : World E) :
  bind c (fun a => bind (f a) g) w = bind (bind c f) g w.
Proof.
  unfold bind. destruct (c w) as [[t1 w1] [a|e]]; [|reflexivity].
  destruct (f a w1) as [[t2 w2] [b|e]]; [|reflexivity].
  destruct (g b w2) as [[t3 w3] r]. now rewrite app_assoc.
Qed.

(** [main] is its set-up followed by its loop; the set-up changes
    nothing and only fails without a GPU. *)
Lemma main_setup_run (env : Env E) (w : World E) :
  exists t,
    main_setup env w
    = (t, w,
       if cuda_is_available env then Ok tt else Raise (SystemExit (-1)))
    /\ Forall (fun ev => is_setup ev \/ is_log ev /\ ~ is_warning ev) t
    /\ (forall path : string,
          (In (EvSetup (TorchSaveFsa path)) t <->
           path = "data/lang/Linv.pt"%string /\ linv_pt_exists env = false)
          /\ (In (EvSetup (ReadOpenfst path)) t <->
              path = "data/lang/L.fst.txt"%string
              /\ linv_pt_exists env = false)
          /\ (In (EvSetup (TorchLoadFsa path)) t <->
              path = "data/lang/Linv.pt"%string
              /\ linv_pt_exists env = true)).
Proof.
  unfold main_setup, build_graph_compiler, build_model_and_optimizer.
  destruct (linv_pt_exists env), (cuda_is_available env);
    (eexists; split; [reflexivity|]; split;
     [ repeat (apply Forall_cons; [simpl; tauto|]); apply Forall_nil
     | intros path; simpl;
       repeat match goal with
              | |- _ /\ _ => split
              | |- _ <-> _ => split
              end;
       try (intros H;
            repeat (destruct H as [H|H];
                    [try discriminate H; try (injection H as <-)|]);
            try contradiction; split; reflexivity);
       try (intros [-> Hl]; try discriminate Hl;
            repeat ((left; reflexivity) || right)) ]).
Qed.

Lemma main_parts (env : Env E) (w : World E) :
  main E env w = bind (main_setup env) (fun _ => main_loop env) w.
Proof.
  unfold main, main_setup, main_loop, initial_best, first_state,
    build_graph_compiler, build_model_and_optimizer.
  change (0 <? start_epoch)%nat with false. cbv iota.
  generalize (epoch_loop E env (seq start_epoch (num_epochs - start_epoch))).
  intros L.
  destruct (linv_pt_exists env), (cuda_is_available env);
    unfold bind, ret; simpl;
    try reflexivity;
    match goal with
    | |- context [L ?s w] => destruct (L s w) as [[t w'] [u|e]]
    end; reflexivity.
Qed.

Lemma run_main_parts (env : Env E) :
  let w := {| w_model := new_model env; w_optimizer := new_optimizer env |} in
  exists t,
    run_main E env
    = (if cuda_is_available env
       then (t ++ trace_of (main_loop env w), world_of (main_loop env w),
             result_of (main_loop env w))
       else (t, w, Raise (SystemExit (-1))))
    /\ main_setup env w
       = (t, w,
          if cuda_is_available env then Ok tt else Raise (SystemExit (-1))).
Proof.
  intros w. destruct (main_setup_run env w) as (t & Hs & _).
  exists t. split; [|exact Hs].
  unfold run_main. fold w. rewrite main_parts. unfold bind at 1.
  rewrite Hs. destruct (cuda_is_available env); [|reflexivity].
  unfold trace_of, world_of, result_of.
  destruct (main_loop env w) as [[t' w'] r]. reflexivity.
Qed.

End MainParts.

(** ** What a computation can raise and emit *)

Section Raises.

Context {E : Externals}.

Lemma raises_ret {A : Type} (P : exn -> Prop) (a : A) :
  raises P (ret (E := E) a).
Proof. intros w e H. discriminate H. Qed.

Lemma raises_raise {A : Type} (P : exn -> Prop) (e : exn) :
  P e -> raises P (raise (E := E) (A := A) e).
Proof. intros H w e' H'. injection H' as <-. exact H. Qed.

Lemma raises_emit (P : exn -> Prop) (ev : event E) : raises P (emit ev).
Proof. intros w e H. discriminate H. Qed.

Lemma raises_get_model (P : exn -> Prop) : raises P (get_model E).
Proof. intros w e H. discriminate H. Qed.

Lemma raises_put_model (P : exn -> Prop) (m : Model E) :
  raises P (put_model E m).
Proof. intros w e H. discriminate H. Qed.

Lemma raises_optimizer_step (P : exn -> Prop) (g : Fsa E) :
  raises P (optimizer_step E g).
Proof.
  intros w e. unfold optimizer_step.
  destruct (backward_and_step E _ _ _). discriminate.
Qed.

Lemma raises_py_div (P : exn -> Prop) (x y : float) :
  P ZeroDivisionError -> raises P (py_div E x y).
Proof.
  intros H. unfold py_div. destruct (PrimFloat.eqb y 0).
  - now apply raises_raise.
  - apply raises_ret.
Qed.

Lemma raises_py_assert (P : exn -> Prop) (b : bool) :
  P AssertionError -> raises P (py_assert E b).
Proof.
  intros H. destruct b; [apply raises_ret | now apply raises_raise].
Qed.

Lemma raises_lift {A : Type} (P : exn -> Prop) (r : result A) :
  (forall e, r = Raise e -> P e) -> raises P (lift (E := E) r).
Proof. intros H w e H'. apply H. exact H'. Qed.

Lemma raises_bind {A B : Type} (P : exn -> Prop) (c : M E A)
  (f : A -> M E B) :
  raises P c -> (forall a, raises P (f a)) -> raises P (bind c f).
Proof.
  intros Hc Hf w e. unfold bind.
  destruct (c w) as [[t1 w1] [a|e1]] eqn:Hcw.
  - destruct (f a w1) as [[t2 w2] r] eqn:Hfa. intros H.
    apply (Hf a w1). rewrite Hfa. exact H.
  - intros H. apply (Hc w). rewrite Hcw. injection H as <-. reflexivity.
Qed.

Lemma raises_for_enumerate {X St : Type} (P : exn -> Prop)
  (body : St -> nat -> X -> M E St) (xs : list X) :
  (forall s idx x, raises P (body s idx x)) ->
  forall idx s, raises P (for_enumerate body idx xs s).
Proof.
  intros Hbody. induction xs as [|x xs IH]; intros idx s; simpl.
  - apply raises_ret.
  - apply raises_bind; [apply Hbody | intros s'; apply IH].
Qed.

Lemma raises_weaken {A : Type} (P Q : exn -> Prop) (c : M E A) :
  (forall e, P e -> Q e) -> raises P c -> raises Q c.
Proof. intros H Hc w e He. apply H. exact (Hc w e He). Qed.

End Raises.

Ltac raises_step :=
  match goal with
  | |- raises _ (ret _) => apply raises_ret
  | |- raises _ (get_model _) => apply raises_get_model
  | |- raises _ (put_model _ _) => apply raises_put_model
  | |- raises _ (py_div _ _ _) => apply raises_py_div
  | |- raises _ (py_assert _ _) => apply raises_py_assert
  | |- raises _ (optimizer_step _ _) => apply raises_optimizer_step
  | |- raises _ (emit _) => apply raises_emit
  | |- raises _ (setup _ _) => apply raises_emit
  | |- raises _ (logging_info _ _) => apply raises_emit
  | |- raises _ (bind _ _) => apply raises_bind; [|intros ?]
  | |- raises _ (for_enumerate _ _ _ _) =>
      apply raises_for_enumerate; intros ? ? ?
  | |- raises _ (match ?x with _ => _ end) => destruct x
  | |- raises _ (if ?b then _ else _) => destruct b
  end.

Section EpochFacts.

Context {E : Externals}.

Lemma get_objf_raises (batch : Batch E) (gc : GraphCompiler E)
  (training : bool) :
  raises batch_error (get_objf E batch gc training).
Proof.
  unfold get_objf.
  apply raises_bind; [apply raises_get_model | intros model].
  apply raises_bind.
  { apply raises_lift. intros e He.
    destruct (sorted_supervisions_raise_kinds _ _ _ He) as [-> | ->];
      unfold batch_error; auto. }
  intros [segs texts].
  repeat (apply raises_bind;
          [first [apply raises_emit | apply raises_py_assert;
                                      unfold batch_error; auto] | intros _]).
  apply raises_bind.
  { apply raises_lift. intros e He.
    destruct (get_tot_objf_and_num_frames _ _); [discriminate He|].
    injection He as <-. unfold batch_error. auto. }
  intros [[tot_score tot_frames] all_frames].
  repeat raises_step.
Qed.

Lemma train_one_epoch_raises (dl vdl : list (Batch E))
  (gc : GraphCompiler E) (current_epoch epochs : nat) (global_idx : Z) :
  raises training_error
    (train_one_epoch E dl vdl gc current_epoch epochs global_idx).
Proof.
  unfold train_one_epoch, train_loop, train_batch, report_batch, validate,
    get_validation_objf, set_model_train.
  repeat raises_step; try (left; reflexivity);
    apply (raises_weaken batch_error); try apply get_objf_raises;
    intros e He; right; exact He.
Qed.

Lemma get_objf_epoch_event (batch : Batch E) (gc : GraphCompiler E)
  (training : bool) :
  emits epoch_event (get_objf E batch gc training).
Proof.
  apply (emits_weaken (batch_event training)); [|apply get_objf_emits].
  intros ev. destruct ev; simpl; auto; try contradiction.
Qed.

Lemma train_one_epoch_epoch_events (dl vdl : list (Batch E))
  (gc : GraphCompiler E) (current_epoch epochs : nat) (global_idx : Z) :
  emits epoch_event
    (train_one_epoch E dl vdl gc current_epoch epochs global_idx).
Proof.
  unfold train_one_epoch, train_loop, train_batch, report_batch, validate,
    get_validation_objf, set_model_train.
  repeat emits_step; simpl; auto; apply get_objf_epoch_event.
Qed.

End EpochFacts.

(** ** The loop over the epochs *)

Section EpochLoop.

Context {E : Externals}.

Lemma ltb_irrefl (x : float) : (x <? x)%float = false.
Proof.
  rewrite FloatAxioms.ltb_spec. unfold SFltb.
  destruct (Prim2SF x) as [s|s| |s m e] eqn:Hx; try reflexivity.
  - destruct s; reflexivity.
  - rewrite (SFcompare_refl (S754_finite s m e)); [reflexivity|discriminate].
Qed.

Lemma train_one_epoch_index (dl vdl : list (Batch E)) (gc : GraphCompiler E)
  (current_epoch epochs : nat) (global_idx : Z) (w : World E)
  (r : float * float * Z) :
  result_of (train_one_epoch E dl vdl gc current_epoch epochs global_idx w)
  = Ok r ->
  snd r = global_idx + Z.of_nat (length dl).
Proof.
  unfold train_one_epoch. intros H.
  apply bind_ok_inv in H as (st & Hloop & _ & _ & H).
  unfold train_loop in Hloop.
  apply bind_ok_inv in Hloop as (u & _ & _ & _ & Hloop).
  apply train_loop_totals in Hloop as (_ & _ & Hidx).
  destruct (ts_totals st) as [[total_objf total_frames] total_all].
  apply bind_ok_inv in H as (avg & _ & _ & _ & H).
  injection H as <-. exact Hidx.
Qed.

Lemma run_epoch_emits (P : event E -> Prop) (env : Env E)
  (st : BestState * Z) (epoch : nat) :
  (forall ev, epoch_event ev -> P ev) ->
  P (EvSetEpoch epoch) ->
  (forall ev, is_save epoch ev -> P ev) ->
  emits P (run_epoch E env st epoch).
Proof.
  intros Hev Hset Hsave. unfold run_epoch.
  do 3 (apply emits_bind; [apply emits_emit; auto; apply Hev; exact I
                          | intros _]).
  apply emits_bind.
  { apply (emits_weaken epoch_event); [exact Hev|].
    apply train_one_epoch_epoch_events. }
  intros r. unfold save_epoch.
  repeat emits_step; apply Hsave; reflexivity.
Qed.

Lemma epoch_loop_emits (P : event E -> Prop) (env : Env E)
  (epochs : list nat) :
  (forall ev, epoch_event ev -> P ev) ->
  (forall epoch, P (EvSetEpoch epoch)) ->
  (forall epoch ev, is_save epoch ev -> P ev) ->
  forall st, emits P (epoch_loop E env epochs st).
Proof.
  intros Hev Hset Hsave.
  induction epochs as [|epoch epochs IH]; intros st; simpl.
  - apply emits_ret.
  - apply emits_bind; [|exact IH].
    apply run_epoch_emits; auto. apply Hsave.
Qed.

Lemma run_epoch_raises (env : Env E) (st : BestState * Z) (epoch : nat) :
  raises training_error (run_epoch E env st epoch).
Proof.
  unfold run_epoch.
  do 3 (apply raises_bind; [apply raises_emit | intros _]).
  apply raises_bind; [apply train_one_epoch_raises | intros r].
  unfold save_epoch. repeat raises_step.
Qed.

Lemma epoch_loop_raises (env : Env E) (epochs : list nat) :
  forall st, raises training_error (epoch_loop E env epochs st).
Proof.
  induction epochs as [|epoch epochs IH]; intros st; simpl.
  - apply raises_ret.
  - apply raises_bind; [apply run_epoch_raises | exact IH].
Qed.

(** One epoch: what it saves is consistent, and the state it hands to
    the next one. *)
Lemma run_epoch_step (env : Env E) (st : BestState * Z) (epoch : nat)
  (w : World E) :
  (best_epoch (fst st) <= epoch)%nat ->
  (epoch < num_epochs)%nat ->
  let run := run_epoch E env st epoch w in
  Forall save_ok (trace_of run)
  /\ Forall (counts_batches env epoch (snd st)) (trace_of run)
  /\ forall st', result_of run = Ok st' ->
                 (best_epoch (fst st') <= epoch)%nat
                 /\ snd st'
                    = snd st + Z.of_nat (length (train_dl env epoch)).
Proof.
  intros Hbest Hlt. cbv zeta.
  pose proof (run_epoch_run env st epoch w) as Hrun. cbv zeta in Hrun.
  pose proof (emits_at _ _ w
                (train_one_epoch_epoch_events (train_dl env epoch)
                   (valid_dl env) (graph_compiler env) epoch num_epochs
                   (snd st))) as Hev.
  assert (Hev1 : Forall save_ok
                   (trace_of
                      (train_one_epoch E (train_dl env epoch) (valid_dl env)
                         (graph_compiler env) epoch num_epochs (snd st) w))).
  { revert Hev. apply Forall_impl. intros ev. destruct ev; simpl; tauto. }
  assert (Hev2 : Forall (counts_batches env epoch (snd st))
                   (trace_of
                      (train_one_epoch E (train_dl env epoch) (valid_dl env)
                         (graph_compiler env) epoch num_epochs (snd st) w))).
  { revert Hev. apply Forall_impl. intros ev. destruct ev; simpl; tauto. }
  assert (Hone : batches_through env epoch epoch
                 = Z.of_nat (length (train_dl env epoch))).
  { unfold batches_through.
    replace (S epoch - epoch)%nat with 1%nat by lia. simpl. lia. }
  destruct (result_of (train_one_epoch E _ _ _ _ _ _ w)) as [r|err] eqn:Hr.
  - destruct Hrun as (best' & Hsaved & ->).
    pose proof (train_one_epoch_index _ _ _ _ _ _ _ _ Hr) as Hidx.
    destruct r as [[objf valid] g]. simpl in Hidx. subst g.
    destruct (valid <? best_valid_objf (fst st))%float eqn:Hcmp.
    + rewrite (save_epoch_better _ _ _ _ _ _ Hcmp) in Hsaved |- *.
      injection Hsaved as <-.
      cbn [trace_of result_of world_of fst snd].
      split; [|split].
      * repeat (apply Forall_cons; [simpl; tauto|]).
        apply Forall_app. split; [exact Hev1|].
        repeat (apply Forall_cons;
                [simpl; repeat split; auto using ltb_irrefl|]).
        apply Forall_nil.
      * repeat (apply Forall_cons; [simpl; tauto|]).
        apply Forall_app. split; [exact Hev2|].
        repeat (apply Forall_cons;
                [simpl; repeat split; auto; rewrite Hone; reflexivity|]).
        apply Forall_nil.
      * intros st' H. injection H as <-. simpl. split; [lia|reflexivity].
    + rewrite (save_epoch_same _ _ _ _ _ _ Hcmp) in Hsaved |- *.
      injection Hsaved as <-.
      cbn [trace_of result_of world_of fst snd].
      split; [|split].
      * repeat (apply Forall_cons; [simpl; tauto|]).
        apply Forall_app. split; [exact Hev1|].
        repeat (apply Forall_cons; [simpl; repeat split; auto|]).
        apply Forall_nil.
      * repeat (apply Forall_cons; [simpl; tauto|]).
        apply Forall_app. split; [exact Hev2|].
        repeat (apply Forall_cons;
                [simpl; repeat split; auto; rewrite Hone; reflexivity|]).
        apply Forall_nil.
      * intros st' H. injection H as <-. simpl. split; [lia|reflexivity].
  - rewrite Hrun. cbn [trace_of result_of world_of fst snd].
    split; [|split].
    + repeat (apply Forall_cons; [simpl; tauto|]). exact Hev1.
    + repeat (apply Forall_cons; [simpl; tauto|]). exact Hev2.
    + intros st' H. discriminate H.
Qed.

End EpochLoop.

(** ** A run of main *)

Section MainRun.

Context {E : Externals}.

Lemma batches_through_step (env : Env E) (s e : nat) :
  (S s <= e)%nat ->
  batches_through env s e
  = Z.of_nat (length (train_dl env s)) + batches_through env (S s) e.
Proof.
  intros H. unfold batches_through.
  replace (S e - s)%nat with (S (S e - S s)) by lia. reflexivity.
Qed.

Lemma epoch_loop_saves_ok (env : Env E) (n : nat) :
  forall (s : nat) (st : BestState * Z) (w : World E),
    (best_epoch (fst st) <= s)%nat ->
    (s + n <= num_epochs)%nat ->
    Forall save_ok (trace_of (epoch_loop E env (seq s n) st w))
    /\ Forall (counts_batches env s (snd st))
         (trace_of (epoch_loop E env (seq s n) st w)).
Proof.
  induction n as [|n IH]; intros s st w Hbest Hn.
  - split; apply Forall_nil.
  - cbn [seq epoch_loop].
    assert (Hs : (s < num_epochs)%nat) by lia.
    pose proof (run_epoch_step env st s w Hbest Hs) as Hstep.
    cbv zeta in Hstep. destruct Hstep as (H1 & H2 & Hnext).
    split; (apply Forall_bind; [assumption|]); intros st' Hst';
      destruct (Hnext st' Hst') as [Hbest' Hidx];
      (destruct (IH (S s) st' (world_of (run_epoch E env st s w)))
        as [IH1 IH2]; [lia | lia |]).
    + exact IH1.
    + revert IH2. apply Forall_impl. intros ev. destruct ev; simpl; auto.
      intros [Hle ->]. split; [lia|].
      rewrite (batches_through_step env s _ Hle), Hidx. lia.
Qed.

Lemma main_loop_run (env : Env E) (w : World E) :
  let loop :=
    epoch_loop E env (seq start_epoch (num_epochs - start_epoch))
      first_state w in
  main_loop env w
  = match result_of loop with
    | Ok _ =>
        (trace_of loop ++ [EvLog WARNING (MsgText "Done")], world_of loop,
         Ok tt)
    | Raise e => (trace_of loop, world_of loop, Raise e)
    end.
Proof.
  cbv zeta. unfold main_loop, bind, emit, trace_of, world_of, result_of.
  destruct (epoch_loop E env _ _ w) as [[t w'] [st|e]]; reflexivity.
Qed.

(** The events of the loop of [main], on every run of it. *)
Lemma main_loop_trace (P : event E -> Prop) (env : Env E) (w : World E) :
  Forall P
    (trace_of
       (epoch_loop E env (seq start_epoch (num_epochs - start_epoch))
          first_state w)) ->
  P (EvLog WARNING (MsgText "Done")) ->
  Forall P (trace_of (main_loop env w)).
Proof.
  intros Hloop Hdone. pose proof (main_loop_run env w) as Hrun.
  cbv zeta in Hrun. rewrite Hrun.
  destruct (result_of (epoch_loop E env _ _ w)); cbn [trace_of fst];
    [|exact Hloop].
  apply Forall_app. split; [exact Hloop|]. repeat constructor. exact Hdone.
Qed.

(** The events of a run of [main]: those of the set-up, then those of
    the loop. *)
Lemma run_main_trace (P : event E -> Prop) (env : Env E) :
  (forall ev, is_setup ev \/ is_log ev /\ ~ is_warning ev -> P ev) ->
  Forall P
    (trace_of
       (main_loop env
          {| w_model := new_model env; w_optimizer := new_optimizer env |})) ->
  Forall P (trace_of (run_main E env)).
Proof.
  intros Hsetup Hloop.
  destruct (run_main_parts env) as (t & -> & Hs).
  destruct (main_setup_run env
              {| w_model := new_model env; w_optimizer := new_optimizer env |})
    as (t' & Hs' & Ht' & _).
  rewrite Hs in Hs'. injection Hs' as <-.
  assert (Ht : Forall P t) by (revert Ht'; apply Forall_impl; exact Hsetup).
  destruct (cuda_is_available env); cbn [trace_of fst]; [|exact Ht].
  apply Forall_app. split; assumption.
Qed.

End MainRun.

Section MainProperties.

Context {E : Externals}.

(** X14. What a run of [main] saves is consistent: every checkpoint and every
    info file is of an epoch below [num_epochs]; the best epoch an info
    file names is never later than the epoch it is written for, and the
    best validation objective it records is one that the epoch's own is
    not below. *)
Theorem main_saves_consistent (env : Env E) :
  Forall save_ok (trace_of (run_main E env)).
Proof.
  apply run_main_trace.
  - intros ev [H | [H _]]; destruct ev; simpl in *; tauto.
  - apply main_loop_trace; [|exact I].
    apply epoch_loop_saves_ok; simpl; unfold num_epochs, start_epoch; lia.
Qed.

(** X15. The number of batches that a checkpoint of [main] records is the
    number of batches the training loader yielded in the epochs up to
    and including its own. *)
Theorem main_checkpoints_count_batches (env : Env E) :
  Forall (counts_batches env start_epoch 0) (trace_of (run_main E env)).
Proof.
  apply run_main_trace.
  - intros ev [H | [H _]]; destruct ev; simpl in *; tauto.
  - apply main_loop_trace; [|exact I].
    apply (epoch_loop_saves_ok env (num_epochs - start_epoch) start_epoch
             first_state);
      simpl; unfold num_epochs, start_epoch; lia.
Qed.

(** X16. How a run of [main] ends.  When it returns, there was a GPU and the
    warning [Done] is the last thing logged, and the only warning.  When
    it raises, no warning is logged; without a GPU the exception is
    SystemExit(-1) and the model and the optimizer are the new ones,
    with a GPU it is one that the training of an epoch raises:
    ZeroDivisionError, RuntimeError, IndexError or AssertionError. *)
Theorem main_outcome (env : Env E) :
  let run := run_main E env in
  match result_of run with
  | Ok _ =>
      cuda_is_available env = true
      /\ exists t,
           trace_of run = t ++ [EvLog WARNING (MsgText "Done")]
           /\ Forall (fun ev => ~ is_warning ev) t
  | Raise e =>
      Forall (fun ev => ~ is_warning ev) (trace_of run)
      /\ if cuda_is_available env then training_error e
         else e = SystemExit (-1)
              /\ world_of run
                 = {| w_model := new_model env;
                      w_optimizer := new_optimizer env |}
  end.
Proof.
  cbv zeta. set (w := Build_World E (new_model env) (new_optimizer env)).
  destruct (run_main_parts env) as (t & Hrun & Hs). fold w in Hs.
  destruct (main_setup_run env w) as (t' & Hs' & Ht' & _).
  rewrite Hs in Hs'. injection Hs' as <-.
  assert (Ht : Forall (fun ev : event E => ~ is_warning ev) t).
  { revert Ht'. apply Forall_impl.
    intros ev [H | [_ H]]; [destruct ev; simpl in *; tauto | exact H]. }
  rewrite Hrun. fold w.
  destruct (cuda_is_available env); cbn [trace_of result_of world_of fst snd];
    [|auto].
  pose proof (main_loop_run env w) as Hloop. cbv zeta in Hloop.
  assert (Hquiet : Forall (fun ev : event E => ~ is_warning ev)
                     (trace_of
                        (epoch_loop E env
                           (seq start_epoch (num_epochs - start_epoch))
                           first_state w))).
  { apply emits_at, epoch_loop_emits.
    - intros ev. destruct ev as [| [] | | | | | | | | | | | | |];
        simpl; tauto.
    - intros epoch H. exact H.
    - intros epoch ev. destruct ev; simpl; tauto. }
  pose proof (epoch_loop_raises env
                (seq start_epoch (num_epochs - start_epoch)) first_state w)
    as Hraise.
  rewrite Hloop.
  destruct (result_of (epoch_loop E env _ _ w)) as [st|e];
    cbn [trace_of result_of world_of fst snd].
  - split; [reflexivity|].
    exists (t ++ trace_of
                   (epoch_loop E env
                      (seq start_epoch (num_epochs - start_epoch))
                      first_state w)).
    split; [now rewrite app_assoc|].
    apply Forall_app. split; assumption.
  - split; [apply Forall_app; split; assumption|].
    apply Hraise. reflexivity.
Qed.

(** X17. The cache of the inverted lexicon.  [main] loads [data/lang/Linv.pt]
    exactly when the file exists; exactly when it does not, it reads
    [data/lang/L.fst.txt] and writes [data/lang/Linv.pt].  It loads,
    reads and writes no other lexicon file. *)
Theorem main_linv_cache (env : Env E) (path : string) :
  let t := trace_of (run_main E env) in
  (In (EvSetup (TorchLoadFsa path)) t <->
   path = "data/lang/Linv.pt"%string /\ linv_pt_exists env = true)
  /\ (In (EvSetup (ReadOpenfst path)) t <->
      path = "data/lang/L.fst.txt"%string /\ linv_pt_exists env = false)
  /\ (In (EvSetup (TorchSaveFsa path)) t <->
      path = "data/lang/Linv.pt"%string /\ linv_pt_exists env = false).
Proof.
  cbv zeta. set (w := Build_World E (new_model env) (new_optimizer env)).
  destruct (run_main_parts env) as (t & Hrun & Hs). fold w in Hs.
  destruct (main_setup_run env w) as (t' & Hs' & _ & Hpaths).
  rewrite Hs in Hs'. injection Hs' as <-.
  destruct (Hpaths path) as (Hsave & Hread & Hload).
  assert (Hloop : forall c,
             ~ In (EvSetup c) (trace_of (main_loop env w))).
  { intros c Hin.
    assert (H : Forall (fun ev : event E => ~ is_setup ev)
                  (trace_of (main_loop env w))).
    { apply main_loop_trace; [|simpl; tauto].
      apply emits_at, epoch_loop_emits.
      - intros ev. destruct ev; simpl; tauto.
      - intros epoch H. exact H.
      - intros epoch ev. destruct ev; simpl; tauto. }
    rewrite Forall_forall in H. apply (H _ Hin). exact I. }
  rewrite Hrun. fold w.
  destruct (cuda_is_available env); cbn [trace_of fst].
  - rewrite !in_app_iff.
    pose proof (Hloop (TorchLoadFsa path)).
    pose proof (Hloop (ReadOpenfst path)).
    pose proof (Hloop (TorchSaveFsa path)). tauto.
  - tauto.
Qed.

End MainProperties.
